(** * Console device driver (kern/console.c)

    A shallow embedding of the text-mode console driver and the
    properties of its operations: byte output ([putbyte], [putbytes]),
    colour handling ([set_term_color], [get_term_color]), the logical and
    the hardware cursor ([set_cursor], [get_cursor], [hide_cursor],
    [show_cursor]) and direct cell access ([draw_char], [get_char],
    [clear_console]). *)

From Stdlib Require Import ZArith List Bool Lia.
Import ListNotations.
Open Scope Z_scope.

(** ** C integer types

    The driver is compiled for 32-bit x86: [int] is a 32-bit two's
    complement integer, [char] is a signed byte, a pointer is an unsigned
    32-bit address.  Values are kept in [Z] and every conversion or
    arithmetic step that can leave the type's range is wrapped
    explicitly. *)

Module CInt.

Definition wrap_signed (bits z : Z) : Z :=
  (z + 2 ^ (bits - 1)) mod 2 ^ bits - 2 ^ (bits - 1).

Definition to_int (z : Z) : Z := wrap_signed 32 z.
Definition to_char (z : Z) : Z := wrap_signed 8 z.
Definition to_uint8 (z : Z) : Z := z mod 2 ^ 8.
Definition to_ptr (z : Z) : Z := z mod 2 ^ 32.

Definition iadd (a b : Z) : Z := to_int (a + b).
Definition isub (a b : Z) : Z := to_int (a - b).
Definition imul (a b : Z) : Z := to_int (a * b).

Definition int_range (z : Z) : Prop := - 2 ^ 31 <= z < 2 ^ 31.

End CInt.
Import CInt.

(** ** Constants of the included headers

    [console.c] takes the address of video memory, the CRTC port numbers
    and the colour codes from [p1kern.h] and [asm.h].  Their values are
    not fixed by the driver's own text, so the embedding is parameterised
    by them. *)

Class video_defines : Type := {
  CONSOLE_MEM_BASE : Z;
  CRTC_IDX_REG : Z;
  CRTC_DATA_REG : Z;
  CRTC_CURSOR_MSB_IDX : Z;
  CRTC_CURSOR_LSB_IDX : Z;
  FGND_WHITE : Z;
  BGND_BLACK : Z
}.

(** Modelled from the spec: the macros [CONSOLE_WIDTH] and
    [CONSOLE_HEIGHT] of the absent header; the grid of the reference
    device is 80 columns by 25 rows.  [set_cursor] hard-codes the same
    bounds as 79 and 24. *)
Definition CONSOLE_WIDTH : Z := 80.
Definition CONSOLE_HEIGHT : Z := 25.

Definition CONSOLE_OUT_OF_RANGE : Z := 2500.

Definition NULL : Z := 0.

(** ** Driver state

    The four globals of [console.c], the byte-addressed memory the driver
    writes through raw pointers, and the CRT controller behind the
    index/data port pair. *)

Record console : Type := mkConsole {
  cursor_row : Z;
  cursor_col : Z;
  current_color : Z;
  is_cursor_visible : Z;
  mem : Z -> Z;
  crtc_idx : Z;
  crtc_regs : Z -> Z
}.

Definition with_cursor_row (r : Z) (st : console) : console :=
  mkConsole r (cursor_col st) (current_color st) (is_cursor_visible st)
            (mem st) (crtc_idx st) (crtc_regs st).

Definition with_cursor_col (c : Z) (st : console) : console :=
  mkConsole (cursor_row st) c (current_color st) (is_cursor_visible st)
            (mem st) (crtc_idx st) (crtc_regs st).

Definition with_current_color (a : Z) (st : console) : console :=
  mkConsole (cursor_row st) (cursor_col st) a (is_cursor_visible st)
            (mem st) (crtc_idx st) (crtc_regs st).

Definition with_is_cursor_visible (v : Z) (st : console) : console :=
  mkConsole (cursor_row st) (cursor_col st) (current_color st) v
            (mem st) (crtc_idx st) (crtc_regs st).

Definition with_mem (m : Z -> Z) (st : console) : console :=
  mkConsole (cursor_row st) (cursor_col st) (current_color st)
            (is_cursor_visible st) m (crtc_idx st) (crtc_regs st).

Definition with_crtc (i : Z) (regs : Z -> Z) (st : console) : console :=
  mkConsole (cursor_row st) (cursor_col st) (current_color st)
            (is_cursor_visible st) (mem st) i regs.

Definition upd (f : Z -> Z) (k v : Z) : Z -> Z :=
  fun k' => if k' =? k then v else f k'.

(** [*(char * )addr = v]: one byte is stored. *)
Definition store (addr v : Z) (st : console) : console :=
  with_mem (upd (mem st) addr (to_uint8 v)) st.

(** [*(char * )addr] read as a [char]. *)
Definition load (addr : Z) (st : console) : Z := to_char (mem st addr).

(** State of the globals when the kernel starts: [cursor_row],
    [cursor_col] and [is_cursor_visible] are initialised to 0 and
    [current_color] lives in zeroed storage. *)
Definition boot (m regs : Z -> Z) : console := mkConsole 0 0 0 0 m 0 regs.

Section Driver.

Context {hw : video_defines}.

(** [CONSOLE_MEM_BASE + 2 * (CONSOLE_WIDTH * row + col)] as a [char *]. *)
Definition cell_addr (row col : Z) : Z :=
  to_ptr (iadd CONSOLE_MEM_BASE (imul 2 (iadd (imul CONSOLE_WIDTH row) col))).

(** [CONSOLE_MEM_BASE + 2 * (CONSOLE_WIDTH * row + col) + 1] as a [char *]. *)
Definition attr_addr (row col : Z) : Z :=
  to_ptr (iadd (iadd CONSOLE_MEM_BASE
                     (imul 2 (iadd (imul CONSOLE_WIDTH row) col))) 1).

(** The console buffer: [CONSOLE_WIDTH * CONSOLE_HEIGHT] cells of two
    bytes from [CONSOLE_MEM_BASE] on. *)
Definition in_console_mem (addr : Z) : Prop :=
  CONSOLE_MEM_BASE <= addr < CONSOLE_MEM_BASE + 2 * (CONSOLE_WIDTH * CONSOLE_HEIGHT).

Definition putbyte (ch : Z) (st : console) : Z * console :=
  if ch =? 10 then
    let st := with_cursor_col 0 st in
    let st := with_cursor_row (iadd (cursor_row st) 1) st in
    (ch, st)
  else if ch =? 13 then
    (ch, with_cursor_col 0 st)
  else if ch =? 8 then
    let st := with_cursor_col (isub (cursor_col st) 1) st in
    let st :=
      if cursor_col st <? 0 then
        let st := with_cursor_col (isub CONSOLE_WIDTH 1) st in
        with_cursor_row (isub (cursor_row st) 1) st
      else st in
    let st := store (cell_addr (cursor_row st) (cursor_col st)) 32 st in
    let st := store (attr_addr (cursor_row st) (cursor_col st)) (current_color st) st in
    (ch, st)
  else
    let st := store (cell_addr (cursor_row st) (cursor_col st)) ch st in
    let st := store (attr_addr (cursor_row st) (cursor_col st)) (current_color st) st in
    let st := with_cursor_col (iadd (cursor_col st) 1) st in
    let st :=
      if cursor_col st >? CONSOLE_WIDTH then
        let st := with_cursor_col 0 st in
        with_cursor_row (iadd (cursor_row st) 1) st
      else st in
    (ch, st).

(** The loop of [putbytes]: [while (len >= 0) { putbyte( *s); s++; len--; }].
    [len - 1] cannot leave the range of [int] because [len >= 0] holds in
    the body. *)
Fixpoint putbytes_loop (fuel : nat) (s len : Z) (st : console) : option console :=
  match fuel with
  | O => None
  | S fuel' =>
      if len >=? 0 then
        let st := snd (putbyte (load s st) st) in
        putbytes_loop fuel' (to_ptr (s + 1)) (len - 1) st
      else Some st
  end.

Definition putbytes_fuel (len : Z) : nat := S (Z.to_nat (len + 1)).

Definition putbytes (s len : Z) (st : console) : option console :=
  if s =? NULL then Some st
  else putbytes_loop (putbytes_fuel len) s len st.

(** [n] sequential calls [putbyte(s[0]); ...; putbyte(s[n-1])], the
    behaviour the documentation of [putbytes] describes for a positive
    length [n]. *)
Fixpoint putbyte_seq (n : nat) (s : Z) (st : console) : console :=
  match n with
  | O => st
  | S n' => putbyte_seq n' (to_ptr (s + 1)) (snd (putbyte (load s st) st))
  end.

Definition set_term_color (color : Z) (st : console) : Z * console :=
  let foreground := Z.land color 0x0F in
  let background := Z.land color 0xF0 in
  if (foreground <? 0) || (foreground >? 15) || (background <? 0) || (background >? 7)
  then (-1, st)
  else (0, with_current_color (to_char color) st).

Definition get_term_color (st : console) : Z := current_color st.

Definition set_cursor (row col : Z) (st : console) : Z * console :=
  if (row <? 0) || (row >? 24) || (col <? 0) || (col >? 79)
  then (-1, st)
  else (0, with_cursor_col col (with_cursor_row row st)).

Definition get_cursor (st : console) : Z * Z := (cursor_row st, cursor_col st).

(** Modelled from the spec: [outb] of the absent [asm.h] and the device
    behind it.  The hardware cursor register is written as two 8-bit
    transfers through an index/data port pair: a byte sent to the index
    port selects a CRTC register, a byte sent to the data port is stored
    in the selected register. *)
Definition outb (port val : Z) (st : console) : console :=
  if port =? CRTC_IDX_REG then
    with_crtc (to_uint8 val) (crtc_regs st) st
  else if port =? CRTC_DATA_REG then
    with_crtc (crtc_idx st) (upd (crtc_regs st) (crtc_idx st) (to_uint8 val)) st
  else st.

(** Modelled from the spec: the hardware cursor register, the 16-bit
    linear position held as a most-significant and a least-significant
    byte in the two cursor registers of the CRTC. *)
Definition crtc_cursor (st : console) : Z :=
  crtc_regs st (to_uint8 CRTC_CURSOR_MSB_IDX) * 2 ^ 8
  + crtc_regs st (to_uint8 CRTC_CURSOR_LSB_IDX).

Definition hide_cursor (st : console) : console :=
  let cursor_pos := CONSOLE_OUT_OF_RANGE in
  let st := outb CRTC_IDX_REG CRTC_CURSOR_MSB_IDX st in
  let st := outb CRTC_DATA_REG (Z.shiftr cursor_pos 8) st in
  let st := outb CRTC_IDX_REG CRTC_CURSOR_LSB_IDX st in
  let st := outb CRTC_DATA_REG cursor_pos st in
  with_is_cursor_visible 0 st.

Definition show_cursor (st : console) : console :=
  let cursor_pos := iadd (imul (cursor_row st) CONSOLE_WIDTH) (cursor_col st) in
  let st := outb CRTC_IDX_REG CRTC_CURSOR_MSB_IDX st in
  let st := outb CRTC_DATA_REG (Z.shiftr cursor_pos 8) st in
  let st := outb CRTC_IDX_REG CRTC_CURSOR_LSB_IDX st in
  let st := outb CRTC_DATA_REG cursor_pos st in
  with_is_cursor_visible 1 st.

Definition draw_char (row col ch color : Z) (st : console) : console :=
  let st := store (cell_addr row col) ch st in
  store (attr_addr row col) color st.

Definition get_char (row col : Z) (st : console) : Z :=
  load (cell_addr row col) st.

(** [for (i = 0; i < n; i++) body(i)] for a non-negative constant [n]. *)
Definition for_upto (n : Z) (body : Z -> console -> console) (st : console) : console :=
  fold_left (fun st i => body (Z.of_nat i) st) (seq 0 (Z.to_nat n)) st.

Definition clear_console (st : console) : console :=
  let st :=
    for_upto CONSOLE_HEIGHT (fun i =>
      for_upto CONSOLE_WIDTH (fun j =>
        draw_char i j 32 (Z.lor FGND_WHITE BGND_BLACK))) st in
  let st := with_cursor_row 0 st in
  with_cursor_col 0 st.

(** The attribute byte for a foreground and a background colour, as the
    masks [0x0F] and [0xF0] of [set_term_color] split it. *)
Definition pack_color (foreground background : Z) : Z :=
  Z.lor foreground (Z.shiftl background 4).

(** Linear position of the logical cursor. *)
Definition linear_pos (st : console) : Z :=
  cursor_row st * CONSOLE_WIDTH + cursor_col st.

(** Grid bounds of the data model. *)
Definition in_grid (row col : Z) : Prop :=
  0 <= row < CONSOLE_HEIGHT /\ 0 <= col < CONSOLE_WIDTH.

(** A byte that [putbyte] treats as an ordinary character. *)
Definition ordinary (ch : Z) : Prop := ch <> 10 /\ ch <> 13 /\ ch <> 8.

(** [putbyte] applied to each element of a list in turn. *)
Definition putbyte_list (l : list Z) (st : console) : console :=
  fold_left (fun st ch => snd (putbyte ch st)) l st.

(** The values a [char] argument can take. *)
Definition char_range (ch : Z) : Prop := -128 <= ch < 128.

(** A cell that shows a space with attribute byte [attr]. *)
Definition blank_cell (attr row col : Z) (st : console) : Prop :=
  mem st (cell_addr row col) = 32 /\ mem st (attr_addr row col) = attr.




End Driver.

(** The values the headers give on the PC: VGA text memory at [0xB8000],
    the CRTC at ports [0x3D4]/[0x3D5], cursor location registers 14 and
    15, white on black as attribute [0x0F]. *)
Definition pc_video : video_defines := {|
  CONSOLE_MEM_BASE := 0xB8000;
  CRTC_IDX_REG := 0x3D4;
  CRTC_DATA_REG := 0x3D5;
  CRTC_CURSOR_MSB_IDX := 14;
  CRTC_CURSOR_LSB_IDX := 15;
  FGND_WHITE := 0xF;
  BGND_BLACK := 0x0
|}.

Definition blank : Z -> Z := fun _ => 0.

(** * Properties *)

(** ** Integer conversions *)

Module CIntFacts.

Lemma to_int_small z : int_range z -> to_int z = z.
Proof.
  unfold int_range, to_int, wrap_signed.
  change (2 ^ (32 - 1)) with 2147483648.
  change (2 ^ 31) with 2147483648.
  change (2 ^ 32) with 4294967296.
  intros Hz. rewrite Z.mod_small; lia.
Qed.

Lemma to_int_eqm z : to_int z mod 2 ^ 32 = z mod 2 ^ 32.
Proof.
  unfold to_int, wrap_signed.
  rewrite Zminus_mod_idemp_l. f_equal. lia.
Qed.

Lemma eqm_add_l a b : (to_int a + b) mod 2 ^ 32 = (a + b) mod 2 ^ 32.
Proof.
  rewrite <- Z.add_mod_idemp_l by discriminate.
  rewrite to_int_eqm.
  now rewrite Z.add_mod_idemp_l by discriminate.
Qed.

Lemma eqm_add_r a b : (a + to_int b) mod 2 ^ 32 = (a + b) mod 2 ^ 32.
Proof. rewrite Z.add_comm, eqm_add_l. f_equal. lia. Qed.

Lemma eqm_mul_r a b : (a * to_int b) mod 2 ^ 32 = (a * b) mod 2 ^ 32.
Proof.
  rewrite <- Z.mul_mod_idemp_r by discriminate.
  rewrite to_int_eqm.
  now rewrite Z.mul_mod_idemp_r by discriminate.
Qed.

Lemma to_uint8_range z : 0 <= to_uint8 z < 256.
Proof. unfold to_uint8. change (2 ^ 8) with 256. apply Z.mod_pos_bound. lia. Qed.

(** The two bytes sent to the data port make up the position modulo
    [2 ^ 16]. *)
Lemma msb_lsb_join p :
  to_uint8 (Z.shiftr p 8) * 2 ^ 8 + to_uint8 p = p mod 2 ^ 16.
Proof.
  unfold to_uint8. rewrite Z.shiftr_div_pow2 by lia.
  change (2 ^ 16) with (2 ^ 8 * 2 ^ 8).
  rewrite Z.rem_mul_r by (discriminate || reflexivity). lia.
Qed.

Lemma to_int_mod16 z : to_int z mod 2 ^ 16 = z mod 2 ^ 16.
Proof.
  change (2 ^ 16) with 65536.
  pose proof (to_int_eqm z) as H. change (2 ^ 32) with (65536 * 65536) in H.
  rewrite !Z.rem_mul_r in H by (discriminate || reflexivity).
  pose proof (Z.mod_pos_bound (to_int z) 65536).
  pose proof (Z.mod_pos_bound z 65536).
  pose proof (Z.mod_pos_bound (to_int z / 65536) 65536).
  pose proof (Z.mod_pos_bound (z / 65536) 65536).
  lia.
Qed.

Lemma to_int_shift z : exists k, to_int z = z + k * 2 ^ 32.
Proof.
  unfold to_int, wrap_signed.
  change (2 ^ (32 - 1)) with 2147483648. change (2 ^ 32) with 4294967296.
  exists (- ((z + 2147483648) / 4294967296)).
  pose proof (Z.div_mod (z + 2147483648) 4294967296 ltac:(lia)). lia.
Qed.

Lemma eqm_shift a b k : a = b + k * 2 ^ 32 -> a mod 2 ^ 32 = b mod 2 ^ 32.
Proof. intros ->. apply Z.mod_add. discriminate. Qed.

End CIntFacts.
Import CIntFacts.

(** ** Addresses and memory *)

Section MemoryFacts.

Context {hw : video_defines}.

Lemma cell_addr_eq row col :
  cell_addr row col
  = (CONSOLE_MEM_BASE + 2 * (CONSOLE_WIDTH * row + col)) mod 2 ^ 32.
Proof.
  unfold cell_addr, to_ptr, iadd, imul.
  destruct (to_int_shift (CONSOLE_WIDTH * row)) as [k1 ->].
  destruct (to_int_shift (CONSOLE_WIDTH * row + k1 * 2 ^ 32 + col)) as [k2 ->].
  match goal with |- context [to_int ?z] =>
    destruct (to_int_shift z) as [k3 ->] end.
  match goal with |- context [to_int ?z] =>
    destruct (to_int_shift z) as [k4 ->] end.
  apply eqm_shift with (k := 2 * k1 + 2 * k2 + k3 + k4). lia.
Qed.

Lemma attr_addr_eq row col :
  attr_addr row col
  = (CONSOLE_MEM_BASE + 2 * (CONSOLE_WIDTH * row + col) + 1) mod 2 ^ 32.
Proof.
  unfold attr_addr, to_ptr, iadd, imul.
  destruct (to_int_shift (CONSOLE_WIDTH * row)) as [k1 ->].
  destruct (to_int_shift (CONSOLE_WIDTH * row + k1 * 2 ^ 32 + col)) as [k2 ->].
  match goal with |- context [to_int (2 * ?z)] =>
    destruct (to_int_shift (2 * z)) as [k3 ->] end.
  match goal with |- context [to_int (CONSOLE_MEM_BASE + ?z)] =>
    destruct (to_int_shift (CONSOLE_MEM_BASE + z)) as [k4 ->] end.
  match goal with |- context [to_int ?z] =>
    destruct (to_int_shift z) as [k5 ->] end.
  apply eqm_shift with (k := 2 * k1 + 2 * k2 + k3 + k4 + k5). lia.
Qed.

Lemma upd_same f k v : upd f k v k = v.
Proof. unfold upd. now rewrite Z.eqb_refl. Qed.

Lemma upd_other f k v k' : k' <> k -> upd f k v k' = f k'.
Proof. unfold upd. intros H. apply Z.eqb_neq in H. now rewrite H. Qed.

Lemma store_same addr v st : mem (store addr v st) addr = to_uint8 v.
Proof. simpl. apply upd_same. Qed.

Lemma store_other addr v st a : a <> addr -> mem (store addr v st) a = mem st a.
Proof. simpl. apply upd_other. Qed.

(** The character byte and the attribute byte of a cell are distinct
    addresses. *)
Lemma cell_attr_distinct row col : attr_addr row col <> cell_addr row col.
Proof.
  rewrite cell_addr_eq, attr_addr_eq.
  set (a := CONSOLE_MEM_BASE + 2 * (CONSOLE_WIDTH * row + col)).
  change (2 ^ 32) with 4294967296.
  intros H.
  pose proof (Z.div_mod a 4294967296 ltac:(lia)).
  pose proof (Z.div_mod (a + 1) 4294967296 ltac:(lia)).
  pose proof (Z.mod_pos_bound a 4294967296 ltac:(lia)).
  assert (4294967296 * ((a + 1) / 4294967296 - a / 4294967296) = 1) by lia.
  lia.
Qed.

End MemoryFacts.

(** ** Byte output *)

Section OutputFacts.

Context {hw : video_defines}.

Ltac case_if :=
  match goal with
  | |- context [if ?b then _ else _] => destruct b eqn:?
  end.

Lemma ordinary_eqb ch :
  ordinary ch -> (ch =? 10) = false /\ (ch =? 13) = false /\ (ch =? 8) = false.
Proof. unfold ordinary. intros (H1 & H2 & H3). rewrite <- !Z.eqb_neq in *. auto. Qed.

(** What [putbyte] does not touch. *)
Lemma putbyte_globals ch st :
  current_color (snd (putbyte ch st)) = current_color st
  /\ is_cursor_visible (snd (putbyte ch st)) = is_cursor_visible st
  /\ crtc_idx (snd (putbyte ch st)) = crtc_idx st
  /\ crtc_regs (snd (putbyte ch st)) = crtc_regs st.
Proof. unfold putbyte. repeat case_if; simpl; auto. Qed.


(** A newline only moves the cursor: no cell is read or written, whatever
    the row. *)
Lemma putbyte_newline st :
  snd (putbyte 10 st)
  = with_cursor_row (iadd (cursor_row st) 1) (with_cursor_col 0 st).
Proof. reflexivity. Qed.

Lemma putbyte_newline_last_row st :
  cursor_row st = CONSOLE_HEIGHT - 1 ->
  cursor_row (snd (putbyte 10 st)) = CONSOLE_HEIGHT
  /\ mem (snd (putbyte 10 st)) = mem st.
Proof. intros H. rewrite putbyte_newline. simpl. rewrite H. split; reflexivity. Qed.

(** An ordinary character is stored at the cursor with the current
    colour. *)
Lemma putbyte_ordinary_cell ch st :
  ordinary ch ->
  mem (snd (putbyte ch st)) (cell_addr (cursor_row st) (cursor_col st)) = to_uint8 ch
  /\ mem (snd (putbyte ch st)) (attr_addr (cursor_row st) (cursor_col st))
     = to_uint8 (current_color st).
Proof.
  intros Hch. destruct (ordinary_eqb ch Hch) as (E1 & E2 & E3).
  unfold putbyte. rewrite E1, E2, E3. cbv zeta.
  split; case_if; simpl.
  all: try (rewrite upd_other by (apply not_eq_sym, cell_attr_distinct)).
  all: apply upd_same.
Qed.

(** Below the width the column advances by one and the row stays. *)
Lemma putbyte_ordinary_cursor ch st :
  ordinary ch ->
  0 <= cursor_col st < CONSOLE_WIDTH ->
  get_cursor (snd (putbyte ch st)) = (cursor_row st, cursor_col st + 1).
Proof.
  intros Hch Hcol. destruct (ordinary_eqb ch Hch) as (E1 & E2 & E3).
  unfold CONSOLE_WIDTH in Hcol.
  unfold putbyte. rewrite E1, E2, E3. cbv zeta. simpl.
  unfold iadd. rewrite to_int_small by (unfold int_range; lia).
  replace (cursor_col st + 1 >? CONSOLE_WIDTH) with false
    by (symmetry; unfold CONSOLE_WIDTH; lia).
  reflexivity.
Qed.

(** The wrap is taken only when the incremented column exceeds the
    width, that is for a character stored at column [CONSOLE_WIDTH]. *)
Lemma putbyte_ordinary_wrap ch st :
  ordinary ch ->
  cursor_col st = CONSOLE_WIDTH ->
  get_cursor (snd (putbyte ch st)) = (iadd (cursor_row st) 1, 0).
Proof.
  intros Hch Hcol. destruct (ordinary_eqb ch Hch) as (E1 & E2 & E3).
  unfold putbyte. rewrite E1, E2, E3. cbv zeta. simpl.
  rewrite Hcol. reflexivity.
Qed.

Lemma putbyte_list_cursor l : forall st,
  Forall ordinary l ->
  0 <= cursor_col st ->
  cursor_col st + Z.of_nat (length l) <= CONSOLE_WIDTH ->
  get_cursor (putbyte_list l st) = (cursor_row st, cursor_col st + Z.of_nat (length l)).
Proof.
  induction l as [|ch l IH]; intros st Hl Hc Hlen.
  - simpl. unfold get_cursor. f_equal. lia.
  - inversion Hl as [|? ? Hch Hl']; subst.
    simpl length in *. rewrite Nat2Z.inj_succ in *.
    change (putbyte_list (ch :: l) st) with (putbyte_list l (snd (putbyte ch st))).
    pose proof (putbyte_ordinary_cursor ch st Hch ltac:(lia)) as Hstep.
    unfold get_cursor in Hstep. injection Hstep as Hr Hcol.
    rewrite IH by (auto; lia).
    rewrite Hr, Hcol. f_equal. lia.
Qed.

(** A full row of ordinary characters written from column 0 leaves the
    cursor on the same row, at column [CONSOLE_WIDTH]. *)
Lemma putbyte_full_row_cursor l st :
  Forall ordinary l ->
  Z.of_nat (length l) = CONSOLE_WIDTH ->
  cursor_col st = 0 ->
  get_cursor (putbyte_list l st) = (cursor_row st, CONSOLE_WIDTH).
Proof.
  intros Hl Hlen Hc.
  rewrite putbyte_list_cursor by (auto; lia).
  f_equal. lia.
Qed.

(** Backspace in column 0 steps to the last column of the row above and
    blanks that cell; the row is decremented without any test. *)
Lemma putbyte_backspace_col0 st :
  cursor_col st = 0 ->
  int_range (cursor_row st - 1) ->
  get_cursor (snd (putbyte 8 st)) = (cursor_row st - 1, CONSOLE_WIDTH - 1)
  /\ mem (snd (putbyte 8 st)) (cell_addr (cursor_row st - 1) (CONSOLE_WIDTH - 1)) = 32
  /\ mem (snd (putbyte 8 st)) (attr_addr (cursor_row st - 1) (CONSOLE_WIDTH - 1))
     = to_uint8 (current_color st).
Proof.
  intros Hc Hr.
  assert (isub (cursor_row st) 1 = cursor_row st - 1) as Hrow
    by (apply to_int_small; assumption).
  unfold putbyte. simpl. rewrite Hc. simpl. rewrite Hrow.
  change (isub CONSOLE_WIDTH 1) with 79.
  repeat split.
  - rewrite upd_other by (apply not_eq_sym, cell_attr_distinct). apply upd_same.
  - apply upd_same.
Qed.

End OutputFacts.

(** ** Batch output *)

Section BatchFacts.

Context {hw : video_defines}.

(** With enough fuel the loop returns, after [len + 1] calls of
    [putbyte] when [len >= 0] and after none when [len < 0]. *)
Lemma putbytes_loop_seq fuel : forall s len st,
  (Z.to_nat (len + 1) < fuel)%nat ->
  putbytes_loop fuel s len st = Some (putbyte_seq (Z.to_nat (len + 1)) s st).
Proof.
  induction fuel as [|fuel IH]; intros s len st Hfuel; [lia|].
  simpl. rewrite Z.geb_leb.
  destruct (0 <=? len) eqn:E.
  - apply Z.leb_le in E.
    replace (Z.to_nat (len + 1)) with (S (Z.to_nat (len - 1 + 1))) in * by lia.
    simpl. apply IH. lia.
  - apply Z.leb_gt in E.
    replace (Z.to_nat (len + 1)) with O by lia. reflexivity.
Qed.

Lemma putbytes_null len st : putbytes NULL len st = Some st.
Proof. reflexivity. Qed.

Lemma putbytes_nonnull s len st :
  s <> NULL ->
  putbytes s len st = Some (putbyte_seq (Z.to_nat (len + 1)) s st).
Proof.
  intros Hs. unfold putbytes.
  apply Z.eqb_neq in Hs. rewrite Hs.
  apply putbytes_loop_seq. unfold putbytes_fuel. lia.
Qed.


Lemma putbytes_negative s len st : len < 0 -> putbytes s len st = Some st.
Proof.
  intros Hlen. destruct (Z.eq_dec s NULL) as [->|Hs].
  - apply putbytes_null.
  - rewrite putbytes_nonnull by assumption.
    replace (Z.to_nat (len + 1)) with O by lia. reflexivity.
Qed.

(** For a non-null string and [len >= 0] the loop body runs once more
    than [len] asks for: the byte [s[len]] is printed too. *)
Lemma putbytes_one_past s len st :
  s <> NULL -> 0 <= len ->
  putbytes s len st = Some (putbyte_seq (S (Z.to_nat len)) s st).
Proof.
  intros Hs Hlen. rewrite putbytes_nonnull by assumption.
  do 2 f_equal. lia.
Qed.

End BatchFacts.

(** ** Colours *)

Section ColorFacts.

Lemma foreground_mask_range color : 0 <= Z.land color 0x0F <= 15.
Proof.
  assert (Z.land color 0x0F = color mod 16) as ->
    by (apply (Z.land_ones color 4); lia).
  pose proof (Z.mod_pos_bound color 16 ltac:(lia)). lia.
Qed.

Lemma background_mask_nonneg color : 0 <= Z.land color 0xF0.
Proof. apply Z.land_nonneg. right. lia. Qed.

(** The unshifted background field is 0 or at least 16. *)
Lemma background_mask_small color :
  Z.land color 0xF0 <= 7 -> Z.land color 0xF0 = 0.
Proof.
  intros Hle. pose proof (background_mask_nonneg color) as Hge.
  assert (Z.land (Z.land color 0xF0) 0xF0 = Z.land color 0xF0) as Hidem.
  { rewrite <- Z.land_assoc. reflexivity. }
  set (b := Z.land color 0xF0) in *.
  assert (b = 0 \/ b = 1 \/ b = 2 \/ b = 3 \/ b = 4 \/ b = 5 \/ b = 6 \/ b = 7)
    as Hcases by lia.
  repeat (destruct Hcases as [Hb|Hcases]; [rewrite Hb in Hidem; simpl in Hidem; lia|]).
  rewrite Hcases in Hidem. simpl in Hidem. lia.
Qed.

Lemma set_term_color_accepts color st :
  Z.land color 0xF0 = 0 ->
  set_term_color color st = (0, with_current_color (to_char color) st).
Proof.
  intros Hbg. unfold set_term_color. cbv zeta. rewrite Hbg.
  pose proof (foreground_mask_range color).
  replace (Z.land color 0x0F <? 0) with false by (symmetry; lia).
  replace (Z.land color 0x0F >? 15) with false by (symmetry; lia).
  reflexivity.
Qed.

Lemma set_term_color_rejects color st :
  Z.land color 0xF0 <> 0 ->
  set_term_color color st = (-1, st).
Proof.
  intros Hbg. unfold set_term_color. cbv zeta.
  assert (7 < Z.land color 0xF0) as Hgt.
  { destruct (Z_le_gt_dec (Z.land color 0xF0) 7) as [Hle|]; [|lia].
    apply background_mask_small in Hle. contradiction. }
  replace (Z.land color 0xF0 >? 7) with true by (symmetry; lia).
  rewrite !orb_true_r. reflexivity.
Qed.

(** Every attribute with a background other than black is refused,
    although its fields are within range: the background is compared
    with 7 without being shifted down. *)
Lemma set_term_color_background_refused fg bg st :
  0 <= fg <= 15 -> 1 <= bg <= 7 ->
  set_term_color (pack_color fg bg) st = (-1, st).
Proof.
  intros Hfg Hbg. apply set_term_color_rejects.
  unfold pack_color. rewrite Z.land_lor_distr_l.
  assert (Z.land fg 0xF0 = 0) as ->.
  { replace fg with (Z.land fg (Z.ones 4))
      by (rewrite Z.land_ones by lia; apply Z.mod_small; change (2 ^ 4) with 16; lia).
    rewrite <- Z.land_assoc. simpl. apply Z.land_0_r. }
  rewrite Z.lor_0_l.
  assert (bg = 1 \/ bg = 2 \/ bg = 3 \/ bg = 4 \/ bg = 5 \/ bg = 6 \/ bg = 7)
    as Hcases by lia.
  repeat (destruct Hcases as [->|Hcases]; [discriminate|]).
  subst bg. discriminate.
Qed.

End ColorFacts.

(** ** Cell access *)

Section CellFacts.

Context {hw : video_defines}.

(** [draw_char] stores both bytes at the computed address for every
    [row] and [col]: the arguments are not inspected. *)
Lemma draw_char_writes row col ch color st :
  mem (draw_char row col ch color st) (cell_addr row col) = to_uint8 ch
  /\ mem (draw_char row col ch color st) (attr_addr row col) = to_uint8 color.
Proof.
  unfold draw_char. simpl. split.
  - rewrite upd_other by (apply not_eq_sym, cell_attr_distinct). apply upd_same.
  - apply upd_same.
Qed.

Lemma draw_char_globals row col ch color st :
  get_cursor (draw_char row col ch color st) = get_cursor st
  /\ current_color (draw_char row col ch color st) = current_color st
  /\ is_cursor_visible (draw_char row col ch color st) = is_cursor_visible st.
Proof. repeat split. Qed.

(** [get_char] reads the computed address for every [row] and [col]. *)
Lemma get_char_reads row col st :
  get_char row col st = to_char (mem st (cell_addr row col)).
Proof. reflexivity. Qed.


(** A property kept by every iteration is kept by the loop. *)
Lemma for_upto_preserves (P : console -> Prop) n body st :
  (forall i st, P st -> P (body i st)) -> P st -> P (for_upto n body st).
Proof.
  intros Hbody. unfold for_upto.
  generalize (seq 0 (Z.to_nat n)). intros l. revert st.
  induction l as [|i l IH]; intros st Hst; simpl; auto.
Qed.

Lemma reset_cursor_globals st :
  get_cursor (with_cursor_col 0 (with_cursor_row 0 st)) = (0, 0)
  /\ current_color (with_cursor_col 0 (with_cursor_row 0 st)) = current_color st
  /\ is_cursor_visible (with_cursor_col 0 (with_cursor_row 0 st)) = is_cursor_visible st.
Proof. repeat split. Qed.

(** [clear_console] resets the logical cursor and leaves the default
    colour and the visibility flag alone. *)
Lemma clear_console_globals st :
  get_cursor (clear_console st) = (0, 0)
  /\ current_color (clear_console st) = current_color st
  /\ is_cursor_visible (clear_console st) = is_cursor_visible st.
Proof.
  unfold clear_console. cbv zeta.
  match goal with
  | |- context [with_cursor_row 0 ?s] =>
      destruct (reset_cursor_globals s) as (Hpos & Hc & Hv)
  end.
  rewrite Hpos, Hc, Hv. split; [reflexivity|].
  apply (for_upto_preserves
           (fun s => current_color s = current_color st
                     /\ is_cursor_visible s = is_cursor_visible st)).
  - intros i s Hs. apply for_upto_preserves; [|exact Hs].
    intros j s' Hs'. exact Hs'.
  - split; reflexivity.
Qed.

End CellFacts.

(** ** Cursor *)

Section CursorFacts.

Context {hw : video_defines}.

Lemma set_cursor_in_grid row col st :
  in_grid row col ->
  set_cursor row col st = (0, with_cursor_col col (with_cursor_row row st)).
Proof.
  unfold in_grid, CONSOLE_HEIGHT, CONSOLE_WIDTH, set_cursor. intros [Hr Hc].
  replace (row <? 0) with false by (symmetry; lia).
  replace (row >? 24) with false by (symmetry; lia).
  replace (col <? 0) with false by (symmetry; lia).
  replace (col >? 79) with false by (symmetry; lia).
  reflexivity.
Qed.

Lemma set_cursor_out_of_grid row col st :
  ~ in_grid row col -> set_cursor row col st = (-1, st).
Proof.
  unfold in_grid, CONSOLE_HEIGHT, CONSOLE_WIDTH, set_cursor. intros Hout.
  destruct (row <? 0) eqn:E1; [reflexivity|].
  destruct (row >? 24) eqn:E2; [reflexivity|].
  destruct (col <? 0) eqn:E3; [reflexivity|].
  destruct (col >? 79) eqn:E4; [reflexivity|].
  exfalso. apply Hout. lia.
Qed.

Section Ports.

(** The index port and the data port are two ports, and the two cursor
    location registers are two registers. *)
Hypothesis ports_distinct : CRTC_IDX_REG <> CRTC_DATA_REG.
Hypothesis cursor_regs_distinct :
  to_uint8 CRTC_CURSOR_MSB_IDX <> to_uint8 CRTC_CURSOR_LSB_IDX.

Lemma outb_index val st :
  outb CRTC_IDX_REG val st = with_crtc (to_uint8 val) (crtc_regs st) st.
Proof. unfold outb. now rewrite Z.eqb_refl. Qed.

Lemma outb_data val st :
  outb CRTC_DATA_REG val st
  = with_crtc (crtc_idx st) (upd (crtc_regs st) (crtc_idx st) (to_uint8 val)) st.
Proof.
  unfold outb.
  replace (CRTC_DATA_REG =? CRTC_IDX_REG) with false
    by (symmetry; apply Z.eqb_neq; congruence).
  now rewrite Z.eqb_refl.
Qed.

(** Index-then-data, high pair then low pair: the register holds the
    16-bit value whose bytes were sent. *)
Lemma crtc_cursor_after_sequence pos st :
  crtc_cursor
    (outb CRTC_DATA_REG pos
       (outb CRTC_IDX_REG CRTC_CURSOR_LSB_IDX
          (outb CRTC_DATA_REG (Z.shiftr pos 8)
             (outb CRTC_IDX_REG CRTC_CURSOR_MSB_IDX st))))
  = pos mod 2 ^ 16.
Proof.
  rewrite (outb_index CRTC_CURSOR_MSB_IDX), outb_data, outb_index, outb_data.
  unfold crtc_cursor. simpl.
  rewrite (upd_other _ _ _ _ cursor_regs_distinct).
  rewrite !upd_same.
  apply msb_lsb_join.
Qed.

Lemma hide_cursor_crtc st : crtc_cursor (hide_cursor st) = CONSOLE_OUT_OF_RANGE.
Proof.
  unfold hide_cursor. cbv zeta.
  change (crtc_cursor (with_is_cursor_visible 0 ?s)) with (crtc_cursor s).
  rewrite crtc_cursor_after_sequence. reflexivity.
Qed.

Lemma show_cursor_crtc st : crtc_cursor (show_cursor st) = linear_pos st mod 2 ^ 16.
Proof.
  unfold show_cursor. cbv zeta.
  change (crtc_cursor (with_is_cursor_visible 1 ?s)) with (crtc_cursor s).
  rewrite crtc_cursor_after_sequence.
  unfold iadd, imul, linear_pos.
  rewrite to_int_mod16.
  destruct (to_int_shift (cursor_row st * CONSOLE_WIDTH)) as [k ->].
  replace (cursor_row st * CONSOLE_WIDTH + k * 2 ^ 32 + cursor_col st)
    with (cursor_row st * CONSOLE_WIDTH + cursor_col st + (k * 2 ^ 16) * 2 ^ 16) by lia.
  apply Z.mod_add. discriminate.
Qed.

End Ports.

Lemma hide_cursor_position st : get_cursor (hide_cursor st) = get_cursor st.
Proof.
  unfold hide_cursor, outb. cbv zeta.
  repeat match goal with
         | |- context [if ?b then _ else _] => destruct b
         end; reflexivity.
Qed.

Lemma hide_cursor_linear_pos st : linear_pos (hide_cursor st) = linear_pos st.
Proof.
  change (fst (get_cursor (hide_cursor st)) * CONSOLE_WIDTH
          + snd (get_cursor (hide_cursor st)) = linear_pos st).
  now rewrite hide_cursor_position.
Qed.

Lemma show_cursor_position st : get_cursor (show_cursor st) = get_cursor st.
Proof.
  unfold show_cursor, outb. cbv zeta.
  repeat match goal with
         | |- context [if ?b then _ else _] => destruct b
         end; reflexivity.
Qed.

Lemma hide_cursor_visible st : is_cursor_visible (hide_cursor st) = 0.
Proof. reflexivity. Qed.

Lemma show_cursor_visible st : is_cursor_visible (show_cursor st) = 1.
Proof. reflexivity. Qed.

End CursorFacts.

(** * The driver against its specification *)

Section Specification.

Context {hw : video_defines}.

(** [set_cursor] performs no port I/O: for every in-bounds
    [(row, col)] it stores the new logical position and leaves the CRT
    controller and the visibility flag exactly as they were, whether the
    cursor is visible or hidden. *)
Lemma set_cursor_leaves_crtc row col st :
  in_grid row col ->
  fst (set_cursor row col st) = 0
  /\ get_cursor (snd (set_cursor row col st)) = (row, col)
  /\ crtc_idx (snd (set_cursor row col st)) = crtc_idx st
  /\ crtc_regs (snd (set_cursor row col st)) = crtc_regs st
  /\ crtc_cursor (snd (set_cursor row col st)) = crtc_cursor st
  /\ is_cursor_visible (snd (set_cursor row col st)) = is_cursor_visible st.
Proof.
  intros Hin. rewrite set_cursor_in_grid by assumption.
  repeat split.
Qed.

(** C8: for every [(row, col)] inside the grid, [set_cursor] succeeds
    and a subsequent [get_cursor] returns exactly [(row, col)]; for every
    [(row, col)] outside the grid, [set_cursor] reports the error (a
    negative return value) and leaves the stored cursor position, indeed
    the whole state, unchanged. *)
Theorem set_cursor_get_cursor row col st :
  (in_grid row col ->
   fst (set_cursor row col st) = 0
   /\ get_cursor (snd (set_cursor row col st)) = (row, col))
  /\ (~ in_grid row col ->
      fst (set_cursor row col st) = -1
      /\ snd (set_cursor row col st) = st
      /\ get_cursor (snd (set_cursor row col st)) = get_cursor st).
Proof.
  split; intros H.
  - rewrite set_cursor_in_grid by assumption. split; reflexivity.
  - rewrite set_cursor_out_of_grid by assumption. repeat split.
Qed.

(** C9 (as amended): [hide_cursor] writes the out-of-range sentinel
    position to the hardware cursor register and does not alter the
    logical position, and neither does [show_cursor] after it.  The
    register is 16 bits wide, filled by two 8-bit transfers: from any
    state [show_cursor] gives it the logical cursor's current linear
    position [row * CONSOLE_WIDTH + col] modulo [2 ^ 16], and so the
    linear position itself from every state in which that position lies
    between 0 and [2 ^ 16 - 1], in particular whenever the cursor is
    inside the grid. *)
Theorem hide_cursor_show_cursor_restores st :
  CRTC_IDX_REG <> CRTC_DATA_REG ->
  to_uint8 CRTC_CURSOR_MSB_IDX <> to_uint8 CRTC_CURSOR_LSB_IDX ->
  get_cursor (hide_cursor st) = get_cursor st
  /\ crtc_cursor (hide_cursor st) = CONSOLE_OUT_OF_RANGE
  /\ CONSOLE_WIDTH * CONSOLE_HEIGHT <= CONSOLE_OUT_OF_RANGE
  /\ get_cursor (show_cursor (hide_cursor st)) = get_cursor st
  /\ crtc_cursor (show_cursor (hide_cursor st))
     = linear_pos (show_cursor (hide_cursor st)) mod 2 ^ 16
  /\ (0 <= linear_pos st < 2 ^ 16 ->
      crtc_cursor (show_cursor (hide_cursor st))
      = linear_pos (show_cursor (hide_cursor st)))
  /\ (in_grid (cursor_row st) (cursor_col st) ->
      crtc_cursor (show_cursor (hide_cursor st))
      = cursor_row st * CONSOLE_WIDTH + cursor_col st).
Proof.
  intros Hports Hregs.
  assert (linear_pos (hide_cursor st) = linear_pos st) as Hpos
    by apply hide_cursor_linear_pos.
  assert (get_cursor (show_cursor (hide_cursor st)) = get_cursor st) as Hcur
    by (rewrite show_cursor_position; apply hide_cursor_position).
  assert (linear_pos (show_cursor (hide_cursor st)) = linear_pos st) as Hpos'.
  { change (fst (get_cursor (show_cursor (hide_cursor st))) * CONSOLE_WIDTH
            + snd (get_cursor (show_cursor (hide_cursor st))) = linear_pos st).
    now rewrite Hcur. }
  split; [apply hide_cursor_position|].
  split; [apply hide_cursor_crtc; assumption|].
  split; [discriminate|].
  split; [exact Hcur|].
  rewrite Hpos', show_cursor_crtc, Hpos by assumption.
  split; [reflexivity|]. split.
  - intros Hfit. apply Z.mod_small. assumption.
  - intros [Hr Hc]. unfold linear_pos. apply Z.mod_small.
    unfold CONSOLE_WIDTH, CONSOLE_HEIGHT in *. change (2 ^ 16) with 65536. lia.
Qed.

End Specification.

(** ** Evaluations on the PC *)

Section PC.

#[local] Existing Instance pc_video.

(** C1: the documentation of [putbytes] promises no effect unless [len]
    is positive, and [len] calls of [putbyte] otherwise.  The loop runs
    while [len >= 0]: for the string [AB] stored at address [0x1000], a
    call with length 0 prints [A] and a call with length 1 prints [A]
    and [B]. *)
Theorem putbytes_zero_length_prints :
  let s := 0x1000 in
  let st := store (s + 1) 66 (store s 65 (boot blank blank)) in
  s <> NULL
  /\ putbytes s 0 st = Some (putbyte_list [65] st)
  /\ get_cursor (putbyte_list [65] st) = (0, 1)
  /\ get_char 0 0 (putbyte_list [65] st) = 65
  /\ get_char 0 0 st = 0
  /\ putbytes s 1 st = Some (putbyte_list [65; 66] st)
  /\ get_cursor (putbyte_list [65; 66] st) = (0, 2).
Proof.
  cbv zeta. split; [discriminate|].
  repeat apply conj; vm_compute; reflexivity.
Qed.

(** C2: after [CONSOLE_WIDTH] ordinary characters written from (0, 0) the
    cursor stands at (0, [CONSOLE_WIDTH]) instead of (1, 0): the wrap
    test is [cursor_col > CONSOLE_WIDTH].  One more character is stored
    at column [CONSOLE_WIDTH] of row 0, which is the cell (1, 0), and
    only then does the cursor wrap, so that the character after it
    lands on the same cell. *)
Theorem putbyte_width_chars_no_wrap :
  let st := putbyte_list (repeat 65 80) (boot blank blank) in
  get_cursor st = (0, CONSOLE_WIDTH)
  /\ get_cursor st <> (1, 0)
  /\ get_char 0 0 st = 65
  /\ get_char 0 79 st = 65
  /\ get_cursor (putbyte_list [66] st) = (1, 0)
  /\ get_char 1 0 (putbyte_list [66] st) = 66
  /\ get_cursor (putbyte_list [66; 67] st) = (1, 1)
  /\ get_char 1 0 (putbyte_list [66; 67] st) = 67.
Proof.
  cbv zeta. split; [vm_compute; reflexivity|].
  split; [vm_compute; discriminate|].
  repeat apply conj; vm_compute; reflexivity.
Qed.

(** C3: a newline on the last row moves the cursor to row
    [CONSOLE_HEIGHT] and leaves memory as it was: no row is shifted up
    (the [X] drawn at (1, 0) does not reach (0, 0)) and the cursor is not
    brought back to the last row. *)
Theorem putbyte_newline_no_scroll :
  let st := snd (set_cursor 24 0 (draw_char 1 0 88 7 (boot blank blank))) in
  let st' := snd (putbyte 10 st) in
  get_cursor st = (CONSOLE_HEIGHT - 1, 0)
  /\ get_cursor st' = (CONSOLE_HEIGHT, 0)
  /\ mem st' = mem st
  /\ get_char 1 0 st = 88
  /\ get_char 0 0 st' = 0.
Proof. cbv zeta. repeat split. Qed.

(** C4: the attribute with foreground 0 and background 1 (blue), within
    the documented ranges, is refused and the stored colour stays as it
    was: [set_term_color] compares the unshifted field [color & 0xF0]
    with 7. *)
Theorem set_term_color_refuses_valid_background :
  let st := boot blank blank in
  pack_color 0 1 = 0x10
  /\ set_term_color (pack_color 0 1) st = (-1, st)
  /\ get_term_color (snd (set_term_color (pack_color 0 1) st)) = get_term_color st.
Proof. cbv zeta. repeat split. Qed.

(** C5: [draw_char] with row 25, outside the grid, is not rejected: it
    stores the character 4000 bytes after [CONSOLE_MEM_BASE], just past
    the console buffer, and [get_char] reads that byte back. *)
Theorem draw_char_out_of_grid_writes :
  let st := boot blank blank in
  ~ in_grid 25 0
  /\ cell_addr 25 0 = CONSOLE_MEM_BASE + 4000
  /\ ~ in_console_mem (cell_addr 25 0)
  /\ mem st (cell_addr 25 0) = 0
  /\ mem (draw_char 25 0 65 7 st) (cell_addr 25 0) = 65
  /\ get_char 25 0 (draw_char 25 0 65 7 st) = 65.
Proof.
  cbv zeta.
  split; [unfold in_grid, CONSOLE_HEIGHT; lia|].
  split; [reflexivity|].
  split; [unfold in_console_mem; vm_compute; intros [_ H]; discriminate H|].
  repeat split.
Qed.

(** C7: backspace at the origin is not clamped: the cursor goes to
    (-1, 79) and the blank is stored two bytes before
    [CONSOLE_MEM_BASE], outside the console buffer. *)
Theorem putbyte_backspace_origin_underflow :
  let st := boot blank blank in
  let st' := snd (putbyte 8 st) in
  get_cursor st = (0, 0)
  /\ get_cursor st' = (-1, CONSOLE_WIDTH - 1)
  /\ cell_addr (-1) 79 = CONSOLE_MEM_BASE - 2
  /\ ~ in_console_mem (cell_addr (-1) 79)
  /\ mem st' (cell_addr (-1) 79) = 32.
Proof.
  cbv zeta.
  split; [reflexivity|].
  split; [reflexivity|].
  split; [reflexivity|].
  split; [unfold in_console_mem; vm_compute; intros [H _]; apply H; reflexivity|].
  reflexivity.
Qed.

(** C6: with the cursor visible and the register showing position 0, a
    successful [set_cursor 1 1] stores the new logical position but does
    not push its linear position 81 to the hardware cursor register,
    which stays at 0: the cursor on the screen does not follow the move.
    A further [show_cursor], documented to have no effect when the
    cursor is already shown, is what brings the register to 81. *)
Theorem set_cursor_visible_register_stale :
  let st := show_cursor (boot blank blank) in
  let st' := snd (set_cursor 1 1 st) in
  in_grid 1 1
  /\ is_cursor_visible st = 1
  /\ crtc_cursor st = 0
  /\ fst (set_cursor 1 1 st) = 0
  /\ get_cursor st' = (1, 1)
  /\ is_cursor_visible st' = 1
  /\ crtc_cursor st' = 0
  /\ crtc_cursor st' <> 1 * CONSOLE_WIDTH + 1
  /\ crtc_cursor (show_cursor st') = 1 * CONSOLE_WIDTH + 1.
Proof.
  cbv zeta.
  split; [unfold in_grid, CONSOLE_HEIGHT, CONSOLE_WIDTH; lia|].
  repeat apply conj; try (vm_compute; reflexivity).
  vm_compute. discriminate.
Qed.

(** C9, as first stated, fails: a backspace at the origin leaves the
    logical cursor at (-1, 79), whose linear position is -1; after
    [hide_cursor] and [show_cursor] the 16-bit register holds 65535. *)
Lemma hide_cursor_show_cursor_out_of_range :
  let st := snd (putbyte 8 (boot blank blank)) in
  get_cursor st = (-1, 79)
  /\ get_cursor (show_cursor (hide_cursor st)) = (-1, 79)
  /\ linear_pos (show_cursor (hide_cursor st)) = -1
  /\ crtc_cursor (show_cursor (hide_cursor st)) = 65535
  /\ crtc_cursor (show_cursor (hide_cursor st))
     <> linear_pos (show_cursor (hide_cursor st)).
Proof.
  cbv zeta.
  repeat apply conj; try (vm_compute; reflexivity).
  vm_compute. discriminate.
Qed.


Lemma set_cursor_get_cursor_witness :
  let st := boot blank blank in
  (in_grid 3 5
   /\ fst (set_cursor 3 5 st) = 0
   /\ get_cursor (snd (set_cursor 3 5 st)) = (3, 5))
  /\ (~ in_grid 25 0
      /\ fst (set_cursor 25 0 st) = -1
      /\ snd (set_cursor 25 0 st) = st
      /\ get_cursor (snd (set_cursor 25 0 st)) = get_cursor st).
Proof.
  cbv zeta.
  assert (in_grid 3 5) as Hin by (unfold in_grid, CONSOLE_HEIGHT, CONSOLE_WIDTH; lia).
  assert (~ in_grid 25 0) as Hout by (unfold in_grid, CONSOLE_HEIGHT; lia).
  split.
  - split; [exact Hin|].
    exact (proj1 (set_cursor_get_cursor 3 5 (boot blank blank)) Hin).
  - split; [exact Hout|].
    exact (proj2 (set_cursor_get_cursor 25 0 (boot blank blank)) Hout).
Defined.

Lemma hide_cursor_show_cursor_restores_witness :
  let st := with_cursor_col 5 (with_cursor_row 3 (boot blank blank)) in
  CRTC_IDX_REG <> CRTC_DATA_REG
  /\ to_uint8 CRTC_CURSOR_MSB_IDX <> to_uint8 CRTC_CURSOR_LSB_IDX
  /\ 0 <= linear_pos st < 2 ^ 16
  /\ in_grid (cursor_row st) (cursor_col st)
  /\ crtc_cursor (hide_cursor st) = 2500
  /\ get_cursor (show_cursor (hide_cursor st)) = (3, 5)
  /\ crtc_cursor (show_cursor (hide_cursor st))
     = linear_pos (show_cursor (hide_cursor st))
  /\ crtc_cursor (show_cursor (hide_cursor st)) = 3 * CONSOLE_WIDTH + 5.
Proof.
  cbv zeta.
  assert (CRTC_IDX_REG <> CRTC_DATA_REG) as Hports by (simpl; lia).
  assert (to_uint8 CRTC_CURSOR_MSB_IDX <> to_uint8 CRTC_CURSOR_LSB_IDX) as Hregs
    by (vm_compute; discriminate).
  assert (0 <= linear_pos (with_cursor_col 5 (with_cursor_row 3 (boot blank blank))) < 2 ^ 16)
    as Hfit by (vm_compute; split; [discriminate | reflexivity]).
  assert (in_grid (cursor_row (with_cursor_col 5 (with_cursor_row 3 (boot blank blank))))
                  (cursor_col (with_cursor_col 5 (with_cursor_row 3 (boot blank blank)))))
    as Hin by (unfold in_grid, CONSOLE_HEIGHT, CONSOLE_WIDTH; simpl; lia).
  destruct (hide_cursor_show_cursor_restores
              (with_cursor_col 5 (with_cursor_row 3 (boot blank blank))) Hports Hregs)
    as (_ & Hhide & _ & Hcur & _ & Hshow & Hgrid).
  split; [exact Hports|].
  split; [exact Hregs|].
  split; [exact Hfit|].
  split; [exact Hin|].
  split; [exact Hhide|].
  split; [exact Hcur|].
  split; [exact (Hshow Hfit)|exact (Hgrid Hin)].
Defined.

End PC.

(** * Further properties of the driver *)

(** ** Layout of video memory *)

Section LayoutFacts.

Context {hw : video_defines}.

Lemma mod_eq_small a b :
  a mod 2 ^ 32 = b mod 2 ^ 32 -> - 2 ^ 32 < a - b < 2 ^ 32 -> a = b.
Proof.
  change (2 ^ 32) with 4294967296. intros Heq Hsmall.
  pose proof (Z.div_mod a 4294967296 ltac:(lia)).
  pose proof (Z.div_mod b 4294967296 ltac:(lia)).
  assert (a - b = 4294967296 * (a / 4294967296 - b / 4294967296)) by lia.
  lia.
Qed.

Lemma mod_eq_parity a b :
  (2 * a) mod 2 ^ 32 = (2 * b + 1) mod 2 ^ 32 -> False.
Proof.
  change (2 ^ 32) with 4294967296. intros Heq.
  pose proof (Z.div_mod (2 * a) 4294967296 ltac:(lia)).
  pose proof (Z.div_mod (2 * b + 1) 4294967296 ltac:(lia)).
  lia.
Qed.

(** A character byte and an attribute byte never share an address,
    whatever the two cells. *)
Lemma cell_attr_apart row col row' col' :
  cell_addr row col <> attr_addr row' col'.
Proof.
  rewrite cell_addr_eq, attr_addr_eq. intros Heq.
  destruct (Z.even CONSOLE_MEM_BASE) eqn:Ev.
  - apply Z.even_spec in Ev. destruct Ev as [k Hk].
    apply (mod_eq_parity (k + (CONSOLE_WIDTH * row + col))
                         (k + (CONSOLE_WIDTH * row' + col'))).
    rewrite Hk in Heq.
    etransitivity; [etransitivity; [|exact Heq]|]; f_equal; lia.
  - assert (Z.odd CONSOLE_MEM_BASE = true) as Od
      by (rewrite <- Z.negb_even, Ev; reflexivity).
    apply Z.odd_spec in Od. destruct Od as [k Hk].
    apply (mod_eq_parity (k + (CONSOLE_WIDTH * row' + col') + 1)
                         (k + (CONSOLE_WIDTH * row + col))).
    rewrite Hk in Heq. symmetry.
    etransitivity; [etransitivity; [|exact Heq]|]; f_equal; lia.
Qed.

(** Two cells whose linear positions are less than [2 ^ 31] apart have
    the same character address only if they are the same position. *)
Lemma cell_addr_same row col row' col' :
  - 2 ^ 31 < (CONSOLE_WIDTH * row + col) - (CONSOLE_WIDTH * row' + col') < 2 ^ 31 ->
  cell_addr row col = cell_addr row' col' ->
  CONSOLE_WIDTH * row + col = CONSOLE_WIDTH * row' + col'.
Proof.
  rewrite !cell_addr_eq. intros Hsmall Heq.
  apply mod_eq_small in Heq; change (2 ^ 31) with 2147483648 in *;
    change (2 ^ 32) with 4294967296 in *; lia.
Qed.

Lemma attr_addr_same row col row' col' :
  - 2 ^ 31 < (CONSOLE_WIDTH * row + col) - (CONSOLE_WIDTH * row' + col') < 2 ^ 31 ->
  attr_addr row col = attr_addr row' col' ->
  CONSOLE_WIDTH * row + col = CONSOLE_WIDTH * row' + col'.
Proof.
  rewrite !attr_addr_eq. intros Hsmall Heq.
  apply mod_eq_small in Heq; change (2 ^ 31) with 2147483648 in *;
    change (2 ^ 32) with 4294967296 in *; lia.
Qed.

Lemma in_grid_position row col row' col' :
  in_grid row col -> in_grid row' col' ->
  CONSOLE_WIDTH * row + col = CONSOLE_WIDTH * row' + col' ->
  row = row' /\ col = col'.
Proof. unfold in_grid, CONSOLE_WIDTH, CONSOLE_HEIGHT. lia. Qed.

Lemma in_grid_apart row col row' col' :
  in_grid row col -> in_grid row' col' ->
  - 2 ^ 31 < (CONSOLE_WIDTH * row + col) - (CONSOLE_WIDTH * row' + col') < 2 ^ 31.
Proof.
  unfold in_grid, CONSOLE_WIDTH, CONSOLE_HEIGHT.
  change (2 ^ 31) with 2147483648. lia.
Qed.

End LayoutFacts.

Section GridFacts.

Context {hw : video_defines}.

Lemma to_char_to_uint8 ch : char_range ch -> to_char (to_uint8 ch) = ch.
Proof.
  unfold char_range, to_char, to_uint8, wrap_signed. intros Hch.
  change (2 ^ (8 - 1)) with 128. change (2 ^ 8) with 256.
  rewrite Z.add_mod_idemp_l by discriminate.
  rewrite Z.mod_small; lia.
Qed.

(** Where the cells of the grid lie when the buffer does not wrap around
    the address space. *)
Lemma grid_cell_addr row col :
  0 <= CONSOLE_MEM_BASE ->
  CONSOLE_MEM_BASE + 2 * (CONSOLE_WIDTH * CONSOLE_HEIGHT) <= 2 ^ 32 ->
  in_grid row col ->
  cell_addr row col = CONSOLE_MEM_BASE + 2 * (CONSOLE_WIDTH * row + col)
  /\ attr_addr row col = CONSOLE_MEM_BASE + 2 * (CONSOLE_WIDTH * row + col) + 1.
Proof.
  rewrite cell_addr_eq, attr_addr_eq.
  unfold in_grid, CONSOLE_WIDTH, CONSOLE_HEIGHT.
  change (2 ^ 32) with 4294967296.
  intros Hbase Htop [Hr Hc].
  split; apply Z.mod_small; lia.
Qed.

Lemma draw_char_mem_other row col ch color st a :
  a <> cell_addr row col -> a <> attr_addr row col ->
  mem (draw_char row col ch color st) a = mem st a.
Proof.
  intros Hc Ha. unfold draw_char. simpl.
  rewrite upd_other by assumption. apply upd_other. assumption.
Qed.

Lemma grid_cells_in_console_mem_aux row col :
  0 <= CONSOLE_MEM_BASE ->
  CONSOLE_MEM_BASE + 2 * (CONSOLE_WIDTH * CONSOLE_HEIGHT) <= 2 ^ 32 ->
  in_grid row col ->
  in_console_mem (cell_addr row col) /\ in_console_mem (attr_addr row col).
Proof.
  intros Hbase Htop Hin.
  destruct (grid_cell_addr row col Hbase Htop Hin) as [Hc Ha].
  rewrite Hc, Ha. unfold in_console_mem.
  unfold in_grid, CONSOLE_WIDTH, CONSOLE_HEIGHT in *.
  split; lia.
Qed.

Lemma grid_cells_apart row col row' col' :
  in_grid row col -> in_grid row' col' ->
  (row, col) <> (row', col') ->
  cell_addr row col <> cell_addr row' col'
  /\ attr_addr row col <> attr_addr row' col'.
Proof.
  intros Hin Hin' Hne.
  pose proof (in_grid_apart _ _ _ _ Hin Hin') as Hsmall.
  split.
  - intros Heq. apply cell_addr_same in Heq; [|assumption].
    apply in_grid_position in Heq; [|assumption..].
    destruct Heq; subst; auto.
  - intros Heq. apply attr_addr_same in Heq; [|assumption].
    apply in_grid_position in Heq; [|assumption..].
    destruct Heq; subst; auto.
Qed.

(** X1: the cells of the grid do not alias: two different positions of
    the grid have four pairwise distinct bytes. *)
Theorem grid_cells_do_not_alias row col row' col' :
  in_grid row col -> in_grid row' col' ->
  (row, col) <> (row', col') ->
  cell_addr row col <> cell_addr row' col'
  /\ attr_addr row col <> attr_addr row' col'
  /\ cell_addr row col <> attr_addr row' col'
  /\ attr_addr row col <> cell_addr row' col'
  /\ cell_addr row col <> attr_addr row col.
Proof.
  intros Hin Hin' Hne.
  destruct (grid_cells_apart row col row' col' Hin Hin' Hne) as [Hc Ha].
  repeat split; try assumption.
  - apply cell_attr_apart.
  - apply not_eq_sym, cell_attr_apart.
  - apply cell_attr_apart.
Qed.

(** X2: when the console buffer fits the address space, the cell
    [(row, col)] of the grid is the pair of bytes at offset
    [2 * (CONSOLE_WIDTH * row + col)] from [CONSOLE_MEM_BASE], and both
    bytes lie inside the buffer. *)
Theorem grid_cells_in_console_mem row col :
  0 <= CONSOLE_MEM_BASE ->
  CONSOLE_MEM_BASE + 2 * (CONSOLE_WIDTH * CONSOLE_HEIGHT) <= 2 ^ 32 ->
  in_grid row col ->
  cell_addr row col = CONSOLE_MEM_BASE + 2 * (CONSOLE_WIDTH * row + col)
  /\ attr_addr row col = cell_addr row col + 1
  /\ in_console_mem (cell_addr row col)
  /\ in_console_mem (attr_addr row col).
Proof.
  intros Hbase Htop Hin.
  destruct (grid_cell_addr row col Hbase Htop Hin) as [Hc Ha].
  rewrite Hc, Ha. unfold in_console_mem.
  unfold in_grid, CONSOLE_WIDTH, CONSOLE_HEIGHT in *.
  repeat split; lia.
Qed.


(** X4: [draw_char] inside the grid changes two bytes of the console
    buffer and nothing else: memory outside the buffer, the cursor, the
    default colour, the visibility flag and the CRT controller are as
    before. *)
Theorem draw_char_frame row col ch color st :
  0 <= CONSOLE_MEM_BASE ->
  CONSOLE_MEM_BASE + 2 * (CONSOLE_WIDTH * CONSOLE_HEIGHT) <= 2 ^ 32 ->
  in_grid row col ->
  (forall a, ~ in_console_mem a -> mem (draw_char row col ch color st) a = mem st a)
  /\ (forall a, a <> cell_addr row col -> a <> attr_addr row col ->
                mem (draw_char row col ch color st) a = mem st a)
  /\ get_cursor (draw_char row col ch color st) = get_cursor st
  /\ current_color (draw_char row col ch color st) = current_color st
  /\ is_cursor_visible (draw_char row col ch color st) = is_cursor_visible st
  /\ crtc_idx (draw_char row col ch color st) = crtc_idx st
  /\ crtc_regs (draw_char row col ch color st) = crtc_regs st.
Proof.
  intros Hbase Htop Hin.
  destruct (grid_cells_in_console_mem_aux row col Hbase Htop Hin) as [Hc Ha].
  split; [|split; [|repeat split]].
  - intros a Hout. apply draw_char_mem_other; intros ->; contradiction.
  - intros a H1 H2. apply draw_char_mem_other; assumption.
Qed.

End GridFacts.

(** ** Clearing the console *)

Section ClearFacts.

Context {hw : video_defines}.

Lemma for_upto_snoc_list (body : Z -> console -> console) (l : list nat)
      (x : nat) (st : console) :
  fold_left (fun st i => body (Z.of_nat i) st) (l ++ [x]) st
  = body (Z.of_nat x) (fold_left (fun st i => body (Z.of_nat i) st) l st).
Proof. rewrite fold_left_app. reflexivity. Qed.

(** A loop whose body keeps a property for the indices it runs over
    keeps it as a whole. *)
Lemma for_upto_keeps (P : console -> Prop) n body st :
  (forall i s, 0 <= i < n -> P s -> P (body i s)) ->
  P st -> P (for_upto n body st).
Proof.
  intros Hbody Hst. unfold for_upto.
  assert (forall i, In i (seq 0 (Z.to_nat n)) -> 0 <= Z.of_nat i < n) as Hrange.
  { intros i Hi. apply in_seq in Hi. lia. }
  revert Hrange. generalize (seq 0 (Z.to_nat n)). intros l.
  induction l as [|x l IH] using rev_ind; intros Hrange; [exact Hst|].
  rewrite for_upto_snoc_list. apply Hbody.
  - apply Hrange, in_or_app. right. left. reflexivity.
  - apply IH. intros i Hi. apply Hrange, in_or_app. left. assumption.
Qed.

(** If iteration [i] establishes [Q i] and no iteration destroys it, the
    loop establishes [Q i] for every index below its bound. *)
Lemma for_upto_establishes (Q : Z -> console -> Prop) n body st :
  (forall i s, 0 <= i < n -> Q i (body i s)) ->
  (forall i k s, 0 <= k < n -> Q i s -> Q i (body k s)) ->
  forall i, 0 <= i < n -> Q i (for_upto n body st).
Proof.
  intros Hest Hkeep i Hi. unfold for_upto.
  assert (In (Z.to_nat i) (seq 0 (Z.to_nat n))) as Hin by (apply in_seq; lia).
  assert (forall k, In k (seq 0 (Z.to_nat n)) -> 0 <= Z.of_nat k < n) as Hrange.
  { intros k Hk. apply in_seq in Hk. lia. }
  revert Hin Hrange. generalize (seq 0 (Z.to_nat n)). intros l.
  induction l as [|x l IH] using rev_ind; intros Hin Hrange; [contradiction|].
  rewrite for_upto_snoc_list.
  assert (0 <= Z.of_nat x < n) as Hx
    by (apply Hrange, in_or_app; right; left; reflexivity).
  apply in_app_or in Hin. destruct Hin as [Hin|[Hin|[]]].
  - apply Hkeep; [assumption|]. apply IH; [assumption|].
    intros k Hk. apply Hrange, in_or_app. left. assumption.
  - subst x. rewrite Z2Nat.id by lia. apply Hest. assumption.
Qed.

(** Drawing a blank anywhere leaves a blank cell blank. *)
Lemma draw_blank_keeps color row col row' col' st :
  blank_cell (to_uint8 color) row' col' st ->
  blank_cell (to_uint8 color) row' col' (draw_char row col 32 color st).
Proof.
  unfold blank_cell. intros [Hc Ha]. unfold draw_char. simpl. split.
  - rewrite upd_other by apply cell_attr_apart.
    unfold upd. destruct (_ =? _); [reflexivity|assumption].
  - unfold upd at 1. destruct (_ =? _); [reflexivity|].
    rewrite upd_other by apply not_eq_sym, cell_attr_apart.
    assumption.
Qed.

Lemma draw_blank_sets color row col st :
  blank_cell (to_uint8 color) row col (draw_char row col 32 color st).
Proof.
  destruct (draw_char_writes row col 32 color st) as [Hc Ha].
  split; assumption.
Qed.

Lemma reset_cursor_mem st :
  mem (with_cursor_col 0 (with_cursor_row 0 st)) = mem st
  /\ crtc_idx (with_cursor_col 0 (with_cursor_row 0 st)) = crtc_idx st
  /\ crtc_regs (with_cursor_col 0 (with_cursor_row 0 st)) = crtc_regs st.
Proof. repeat split. Qed.

Lemma clear_console_mem st :
  mem (clear_console st)
  = mem (for_upto CONSOLE_HEIGHT (fun i =>
           for_upto CONSOLE_WIDTH (fun j =>
             draw_char i j 32 (Z.lor FGND_WHITE BGND_BLACK))) st).
Proof.
  unfold clear_console. cbv zeta.
  match goal with
  | |- context [with_cursor_row 0 ?s] =>
      destruct (reset_cursor_mem s) as (Hm & _)
  end.
  exact Hm.
Qed.

Lemma clear_console_blank_cell st row col :
  in_grid row col ->
  blank_cell (to_uint8 (Z.lor FGND_WHITE BGND_BLACK)) row col (clear_console st).
Proof.
  intros [Hr Hc]. unfold blank_cell. rewrite clear_console_mem.
  set (color := Z.lor FGND_WHITE BGND_BLACK).
  change (blank_cell (to_uint8 color) row col
            (for_upto CONSOLE_HEIGHT (fun i =>
               for_upto CONSOLE_WIDTH (fun j => draw_char i j 32 color)) st)).
  revert col Hc.
  apply (for_upto_establishes
           (fun i s => forall col, 0 <= col < CONSOLE_WIDTH ->
                                   blank_cell (to_uint8 color) i col s)).
  - intros i s Hi col Hc.
    apply (for_upto_establishes
             (fun j s => blank_cell (to_uint8 color) i j s)).
    + intros j s' Hj. apply draw_blank_sets.
    + intros j k s' Hk Hb. apply draw_blank_keeps. assumption.
    + assumption.
  - intros i k s Hk Hb col Hc.
    apply for_upto_keeps; [|apply Hb; assumption].
    intros j s' Hj Hb'. apply draw_blank_keeps. assumption.
  - assumption.
Qed.

(** X5: after [clear_console] every cell of the grid holds a space with
    the attribute [FGND_WHITE | BGND_BLACK], [get_char] returns a space
    everywhere in the grid and the cursor is at (0, 0), whatever the
    state before; the default colour and the visibility flag are not
    altered. *)
Theorem clear_console_blanks_grid st row col :
  in_grid row col ->
  mem (clear_console st) (cell_addr row col) = 32
  /\ mem (clear_console st) (attr_addr row col)
     = to_uint8 (Z.lor FGND_WHITE BGND_BLACK)
  /\ get_char row col (clear_console st) = 32
  /\ get_cursor (clear_console st) = (0, 0)
  /\ current_color (clear_console st) = current_color st
  /\ is_cursor_visible (clear_console st) = is_cursor_visible st.
Proof.
  intros Hin.
  destruct (clear_console_blank_cell st row col Hin) as [Hc Ha].
  destruct (clear_console_globals st) as (Hpos & Hcol & Hvis).
  repeat split; try assumption.
  rewrite get_char_reads, Hc. reflexivity.
Qed.

(** X6: when the console buffer fits the address space, [clear_console]
    writes inside the buffer only: every byte outside it keeps its
    value. *)
Theorem clear_console_frame st a :
  0 <= CONSOLE_MEM_BASE ->
  CONSOLE_MEM_BASE + 2 * (CONSOLE_WIDTH * CONSOLE_HEIGHT) <= 2 ^ 32 ->
  ~ in_console_mem a ->
  mem (clear_console st) a = mem st a.
Proof.
  intros Hbase Htop Hout. rewrite clear_console_mem.
  apply (for_upto_keeps (fun s => mem s a = mem st a)); [|reflexivity].
  intros i s Hi Hs.
  apply (for_upto_keeps (fun s => mem s a = mem st a)); [|assumption].
  intros j s' Hj Hs'.
  destruct (grid_cells_in_console_mem_aux i j Hbase Htop (conj Hi Hj)) as [Hc Ha].
  rewrite draw_char_mem_other; [assumption| |]; intros ->; contradiction.
Qed.

End ClearFacts.

(** ** Colour and cursor *)

Section StateFacts.

Context {hw : video_defines}.

Ltac case_outb :=
  repeat match goal with
         | |- context [if ?b then _ else _] => destruct b
         end.

(** An accepted colour code is stored as its low four bits. *)
Lemma to_char_masked color :
  Z.land color 0xF0 = 0 -> to_char color = Z.land color 0x0F.
Proof.
  intros Hbg.
  assert (color mod 256 = Z.land color 0x0F) as Hlow.
  { change (color mod 256) with (color mod 2 ^ 8).
    rewrite <- (Z.land_ones color 8) by lia.
    change (Z.ones 8) with (Z.lor 0xF0 0x0F).
    rewrite Z.land_lor_distr_r, Hbg. apply Z.lor_0_l. }
  pose proof (foreground_mask_range color) as Hfg.
  unfold to_char, wrap_signed.
  change (2 ^ (8 - 1)) with 128. change (2 ^ 8) with 256.
  rewrite <- Z.add_mod_idemp_l by discriminate.
  rewrite Hlow. rewrite Z.mod_small; lia.
Qed.

Lemma hide_cursor_frame st :
  mem (hide_cursor st) = mem st
  /\ current_color (hide_cursor st) = current_color st
  /\ get_cursor (hide_cursor st) = get_cursor st.
Proof. unfold hide_cursor, outb. cbv zeta. case_outb; repeat split. Qed.

Lemma show_cursor_frame st :
  mem (show_cursor st) = mem st
  /\ current_color (show_cursor st) = current_color st
  /\ get_cursor (show_cursor st) = get_cursor st.
Proof. unfold show_cursor, outb. cbv zeta. case_outb; repeat split. Qed.



Lemma set_term_color_masked color st :
  set_term_color color st
  = if Z.land color 0xF0 =? 0
    then (0, with_current_color (Z.land color 0x0F) st)
    else (-1, st).
Proof.
  destruct (Z.land color 0xF0 =? 0) eqn:E.
  - apply Z.eqb_eq in E.
    rewrite set_term_color_accepts, to_char_masked by assumption.
    reflexivity.
  - apply Z.eqb_neq in E. apply set_term_color_rejects. assumption.
Qed.

(** X7: [set_term_color] accepts exactly the codes with
    [color & 0xF0 = 0]: it then returns 0 and [get_term_color] gives the
    low four bits of the code; every other code is answered with -1 and
    the state is left as it was. *)
Theorem set_term_color_get_term_color color st :
  set_term_color color st
  = (if Z.land color 0xF0 =? 0
     then (0, with_current_color (Z.land color 0x0F) st)
     else (-1, st))
  /\ get_term_color (snd (set_term_color color st))
     = (if Z.land color 0xF0 =? 0 then Z.land color 0x0F else get_term_color st).
Proof.
  rewrite set_term_color_masked.
  destruct (Z.land color 0xF0 =? 0); split; reflexivity.
Qed.




End StateFacts.

(** ** Output at the cursor *)

Section TypingFacts.

Context {hw : video_defines}.

Lemma putbyte_ordinary_mem_other ch st a :
  ordinary ch ->
  a <> cell_addr (cursor_row st) (cursor_col st) ->
  a <> attr_addr (cursor_row st) (cursor_col st) ->
  mem (snd (putbyte ch st)) a = mem st a.
Proof.
  intros Hch Hc Ha. destruct (ordinary_eqb ch Hch) as (E1 & E2 & E3).
  unfold putbyte. rewrite E1, E2, E3. cbv zeta.
  match goal with |- context [if ?b then _ else _] => destruct b end; simpl;
    rewrite upd_other by assumption; apply upd_other; assumption.
Qed.

Lemma putbyte_ordinary_row_col ch st :
  ordinary ch ->
  0 <= cursor_col st < CONSOLE_WIDTH ->
  cursor_row (snd (putbyte ch st)) = cursor_row st
  /\ cursor_col (snd (putbyte ch st)) = cursor_col st + 1.
Proof.
  intros Hch Hcol.
  pose proof (putbyte_ordinary_cursor ch st Hch Hcol) as H.
  unfold get_cursor in H. injection H as Hr Hc. split; assumption.
Qed.

(** Columns of one row have distinct character bytes. *)
Lemma row_cells_apart row col col' :
  col <> col' -> - 2 ^ 31 < col - col' < 2 ^ 31 ->
  cell_addr row col <> cell_addr row col'.
Proof.
  intros Hne Hsmall Heq. apply cell_addr_same in Heq; lia.
Qed.

Lemma putbyte_list_mem_other l : forall st a,
  Forall ordinary l ->
  0 <= cursor_col st ->
  cursor_col st + Z.of_nat (length l) <= CONSOLE_WIDTH ->
  (forall j, cursor_col st <= j < cursor_col st + Z.of_nat (length l) ->
             a <> cell_addr (cursor_row st) j /\ a <> attr_addr (cursor_row st) j) ->
  mem (putbyte_list l st) a = mem st a.
Proof.
  induction l as [|ch l IH]; intros st a Hl Hc Hlen Ha; [reflexivity|].
  inversion Hl as [|? ? Hch Hl']; subst.
  simpl length in *. rewrite Nat2Z.inj_succ in *.
  change (putbyte_list (ch :: l) st) with (putbyte_list l (snd (putbyte ch st))).
  destruct (putbyte_ordinary_row_col ch st Hch ltac:(lia)) as [Hr Hcol].
  rewrite IH.
  - apply putbyte_ordinary_mem_other; [assumption| |]; apply Ha; lia.
  - assumption.
  - lia.
  - lia.
  - intros j Hj. rewrite Hr. apply Ha. lia.
Qed.

Lemma putbyte_backspace_in_row st :
  0 < cursor_col st -> int_range (cursor_col st - 1) ->
  get_cursor (snd (putbyte 8 st)) = (cursor_row st, cursor_col st - 1)
  /\ mem (snd (putbyte 8 st)) (cell_addr (cursor_row st) (cursor_col st - 1)) = 32
  /\ mem (snd (putbyte 8 st)) (attr_addr (cursor_row st) (cursor_col st - 1))
     = to_uint8 (current_color st).
Proof.
  intros Hpos Hrange.
  assert (isub (cursor_col st) 1 = cursor_col st - 1) as Hcol
    by (apply to_int_small; assumption).
  unfold putbyte. simpl. rewrite Hcol.
  replace (cursor_col st - 1 <? 0) with false by (symmetry; lia).
  simpl. repeat split.
  - rewrite upd_other by (apply not_eq_sym, cell_attr_distinct). apply upd_same.
  - apply upd_same.
Qed.

(** X9: an ordinary character given to [putbyte] is stored in the cell
    under the cursor with the current default colour, so that [get_char]
    at that position returns it; no other byte of memory changes. *)
Theorem putbyte_get_char ch st :
  ordinary ch -> char_range ch ->
  get_char (cursor_row st) (cursor_col st) (snd (putbyte ch st)) = ch
  /\ mem (snd (putbyte ch st)) (attr_addr (cursor_row st) (cursor_col st))
     = to_uint8 (current_color st)
  /\ (forall a, a <> cell_addr (cursor_row st) (cursor_col st) ->
                a <> attr_addr (cursor_row st) (cursor_col st) ->
                mem (snd (putbyte ch st)) a = mem st a).
Proof.
  intros Hch Hrange.
  destruct (putbyte_ordinary_cell ch st Hch) as [Hc Ha].
  split; [|split].
  - rewrite get_char_reads, Hc. apply to_char_to_uint8. assumption.
  - assumption.
  - intros a H1 H2. apply putbyte_ordinary_mem_other; assumption.
Qed.

(** X10: a run of ordinary characters that fits the rest of the row is
    laid out from the cursor on: the cursor advances by the length of the
    run on the same row and [get_char] returns the [i]-th character at
    the [i]-th column after the starting column. *)
Theorem putbyte_list_get_char l : forall st,
  Forall ordinary l -> Forall char_range l ->
  0 <= cursor_col st ->
  cursor_col st + Z.of_nat (length l) <= CONSOLE_WIDTH ->
  get_cursor (putbyte_list l st)
  = (cursor_row st, cursor_col st + Z.of_nat (length l))
  /\ forall i, (i < length l)%nat ->
       get_char (cursor_row st) (cursor_col st + Z.of_nat i) (putbyte_list l st)
       = nth i l 0.
Proof.
  intros st Hl Hr Hc Hlen.
  split; [apply putbyte_list_cursor; assumption|].
  revert st Hl Hr Hc Hlen.
  induction l as [|ch l IH]; intros st Hl Hr Hc Hlen i Hi; [simpl in Hi; lia|].
  inversion Hl as [|? ? Hch Hl']; subst.
  inversion Hr as [|? ? Hrange Hr']; subst.
  simpl length in *. rewrite Nat2Z.inj_succ in *.
  change (putbyte_list (ch :: l) st) with (putbyte_list l (snd (putbyte ch st))).
  destruct (putbyte_ordinary_row_col ch st Hch ltac:(lia)) as [Hrow Hcol].
  destruct i as [|i].
  - simpl nth. rewrite Z.add_0_r, get_char_reads.
    rewrite putbyte_list_mem_other; [| assumption | lia | lia |].
    + rewrite (proj1 (putbyte_ordinary_cell ch st Hch)).
      apply to_char_to_uint8. assumption.
    + intros j Hj. rewrite Hrow. split.
      * apply row_cells_apart; unfold CONSOLE_WIDTH in *;
          change (2 ^ 31) with 2147483648; lia.
      * apply cell_attr_apart.
  - simpl nth.
    assert (0 <= cursor_col (snd (putbyte ch st))) as H0 by lia.
    assert (cursor_col (snd (putbyte ch st)) + Z.of_nat (length l) <= CONSOLE_WIDTH)
      as H1 by lia.
    assert (i < length l)%nat as H2 by lia.
    specialize (IH (snd (putbyte ch st)) Hl' Hr' H0 H1 i H2).
    rewrite Hrow, Hcol in IH.
    replace (cursor_col st + Z.of_nat (S i)) with (cursor_col st + 1 + Z.of_nat i) by lia.
    exact IH.
Qed.

(** X11: an ordinary character followed by a backspace brings the cursor
    back where it was and leaves a space with the default colour in the
    cell, for every column of the row. *)
Theorem putbyte_then_backspace ch st :
  ordinary ch ->
  0 <= cursor_col st < CONSOLE_WIDTH ->
  get_cursor (snd (putbyte 8 (snd (putbyte ch st)))) = get_cursor st
  /\ get_char (cursor_row st) (cursor_col st) (snd (putbyte 8 (snd (putbyte ch st)))) = 32
  /\ mem (snd (putbyte 8 (snd (putbyte ch st))))
         (attr_addr (cursor_row st) (cursor_col st))
     = to_uint8 (current_color st).
Proof.
  intros Hch Hcol.
  destruct (putbyte_ordinary_row_col ch st Hch Hcol) as [Hr Hc].
  destruct (putbyte_globals ch st) as (Hcolor & _).
  unfold CONSOLE_WIDTH in Hcol.
  destruct (putbyte_backspace_in_row (snd (putbyte ch st))) as (Hpos & Hcell & Hattr).
  - lia.
  - rewrite Hc. unfold int_range. change (2 ^ 31) with 2147483648. lia.
  - rewrite Hr, Hc, Hcolor in *.
    replace (cursor_col st + 1 - 1) with (cursor_col st) in * by lia.
    split; [exact Hpos|]. split; [|exact Hattr].
    rewrite get_char_reads, Hcell. reflexivity.
Qed.

(** X13: a newline moves the cursor to column 0 of the next row and a
    carriage return to column 0 of the same row, whatever the column;
    neither touches memory. *)
Theorem putbyte_newline_carriage_return st :
  int_range (cursor_row st + 1) ->
  get_cursor (snd (putbyte 10 st)) = (cursor_row st + 1, 0)
  /\ mem (snd (putbyte 10 st)) = mem st
  /\ get_cursor (snd (putbyte 13 st)) = (cursor_row st, 0)
  /\ mem (snd (putbyte 13 st)) = mem st.
Proof.
  intros Hrange. rewrite putbyte_newline.
  unfold get_cursor. simpl. unfold iadd. rewrite to_int_small by assumption.
  repeat split.
Qed.

(** X16: output begins at the position given to [set_cursor]: after a
    successful [set_cursor row col], an ordinary character is stored at
    [(row, col)] and the cursor moves on to [(row, col + 1)]. *)
Theorem set_cursor_then_putbyte row col ch st :
  in_grid row col -> ordinary ch -> char_range ch ->
  fst (set_cursor row col st) = 0
  /\ get_char row col (snd (putbyte ch (snd (set_cursor row col st)))) = ch
  /\ get_cursor (snd (putbyte ch (snd (set_cursor row col st)))) = (row, col + 1).
Proof.
  intros Hin Hch Hrange.
  rewrite set_cursor_in_grid by assumption. cbn [fst snd].
  set (st1 := with_cursor_col col (with_cursor_row row st)).
  assert (cursor_row st1 = row) as Hr by reflexivity.
  assert (cursor_col st1 = col) as Hc by reflexivity.
  split; [reflexivity|]. split.
  - rewrite get_char_reads. rewrite <- Hr at 1. rewrite <- Hc at 1.
    rewrite (proj1 (putbyte_ordinary_cell ch st1 Hch)).
    apply to_char_to_uint8. assumption.
  - rewrite putbyte_ordinary_cursor; [rewrite Hr, Hc; reflexivity|assumption|].
    rewrite Hc. destruct Hin as [_ Hcol]. exact Hcol.
Qed.

End TypingFacts.

(** ** Backspace and batch output *)

Section BatchOutputFacts.

Context {hw : video_defines}.

Lemma putbyte_backspace_mem_other st a :
  a <> cell_addr (cursor_row (snd (putbyte 8 st))) (cursor_col (snd (putbyte 8 st))) ->
  a <> attr_addr (cursor_row (snd (putbyte 8 st))) (cursor_col (snd (putbyte 8 st))) ->
  mem (snd (putbyte 8 st)) a = mem st a.
Proof.
  unfold putbyte. simpl.
  destruct (isub (cursor_col st) 1 <? 0); simpl; intros Hc Ha;
    rewrite upd_other by assumption; apply upd_other; assumption.
Qed.

(** X12: backspace steps the cursor one cell back, to the last column of
    the row above when it stands in the first column, and blanks the
    cell it arrives at with the default colour; no other byte of memory
    changes.  The row is decremented without regard to the top of the
    grid. *)
Theorem putbyte_backspace_blanks st :
  int_range (cursor_col st - 1) -> int_range (cursor_row st - 1) ->
  get_cursor (snd (putbyte 8 st))
  = (if 0 <? cursor_col st
     then (cursor_row st, cursor_col st - 1)
     else (cursor_row st - 1, CONSOLE_WIDTH - 1))
  /\ blank_cell (to_uint8 (current_color st))
                (cursor_row (snd (putbyte 8 st))) (cursor_col (snd (putbyte 8 st)))
                (snd (putbyte 8 st))
  /\ (forall a,
        a <> cell_addr (cursor_row (snd (putbyte 8 st))) (cursor_col (snd (putbyte 8 st))) ->
        a <> attr_addr (cursor_row (snd (putbyte 8 st))) (cursor_col (snd (putbyte 8 st))) ->
        mem (snd (putbyte 8 st)) a = mem st a).
Proof.
  intros Hcol Hrow.
  split; [|split; [|apply putbyte_backspace_mem_other]].
  - assert (isub (cursor_col st) 1 = cursor_col st - 1) as Ec
      by (apply to_int_small; assumption).
    assert (isub (cursor_row st) 1 = cursor_row st - 1) as Er
      by (apply to_int_small; assumption).
    unfold putbyte. simpl. rewrite Ec.
    destruct (0 <? cursor_col st) eqn:E.
    + replace (cursor_col st - 1 <? 0) with false by (symmetry; lia).
      reflexivity.
    + replace (cursor_col st - 1 <? 0) with true by (symmetry; lia).
      simpl. rewrite Er. reflexivity.
  - unfold blank_cell, putbyte. simpl.
    destruct (isub (cursor_col st) 1 <? 0); simpl; split;
      try apply upd_same;
      rewrite upd_other by (apply not_eq_sym, cell_attr_distinct); apply upd_same.
Qed.

(** X14: [putbytes] always returns.  It has no effect for a null string
    or a negative length; for a non-null string and a length [len >= 0]
    it is [len + 1] calls of [putbyte], on the bytes [s[0]] to
    [s[len]] in order. *)
Theorem putbytes_characterised s len st :
  putbytes s len st
  = Some (if (s =? NULL) || (len <? 0) then st
          else putbyte_seq (S (Z.to_nat len)) s st).
Proof.
  destruct (s =? NULL) eqn:Es.
  - apply Z.eqb_eq in Es. subst. apply putbytes_null.
  - apply Z.eqb_neq in Es. cbn [orb].
    destruct (len <? 0) eqn:El.
    + apply Z.ltb_lt in El. apply putbytes_negative. assumption.
    + apply Z.ltb_ge in El. rewrite putbytes_nonnull by assumption.
      do 2 f_equal. lia.
Qed.


End BatchOutputFacts.

(** ** The hardware cursor *)

Section HardwareCursorFacts.

Context {hw : video_defines}.

Hypothesis ports_distinct : CRTC_IDX_REG <> CRTC_DATA_REG.
Hypothesis cursor_regs_distinct :
  to_uint8 CRTC_CURSOR_MSB_IDX <> to_uint8 CRTC_CURSOR_LSB_IDX.

(** State of the CRT controller after the four port writes that send
    [pos]. *)
Lemma crtc_after_sequence pos st :
  let st' := outb CRTC_DATA_REG pos
               (outb CRTC_IDX_REG CRTC_CURSOR_LSB_IDX
                  (outb CRTC_DATA_REG (Z.shiftr pos 8)
                     (outb CRTC_IDX_REG CRTC_CURSOR_MSB_IDX st))) in
  crtc_idx st' = to_uint8 CRTC_CURSOR_LSB_IDX
  /\ crtc_regs st'
     = upd (upd (crtc_regs st) (to_uint8 CRTC_CURSOR_MSB_IDX) (to_uint8 (Z.shiftr pos 8)))
           (to_uint8 CRTC_CURSOR_LSB_IDX) (to_uint8 pos).
Proof.
  cbv zeta.
  rewrite (outb_index CRTC_CURSOR_MSB_IDX), (outb_data ports_distinct),
    outb_index, (outb_data ports_distinct).
  split; reflexivity.
Qed.

Lemma upd_pair_again f m l a b k :
  upd (upd (upd (upd f m a) l b) m a) l b k = upd (upd f m a) l b k.
Proof.
  unfold upd. destruct (k =? l); [reflexivity|].
  destruct (k =? m); reflexivity.
Qed.

Lemma show_cursor_crtc_state st :
  crtc_idx (show_cursor st) = to_uint8 CRTC_CURSOR_LSB_IDX
  /\ crtc_regs (show_cursor st)
     = upd (upd (crtc_regs st) (to_uint8 CRTC_CURSOR_MSB_IDX)
                (to_uint8 (Z.shiftr (iadd (imul (cursor_row st) CONSOLE_WIDTH)
                                          (cursor_col st)) 8)))
           (to_uint8 CRTC_CURSOR_LSB_IDX)
           (to_uint8 (iadd (imul (cursor_row st) CONSOLE_WIDTH) (cursor_col st))).
Proof.
  unfold show_cursor. cbv zeta.
  apply (crtc_after_sequence
           (iadd (imul (cursor_row st) CONSOLE_WIDTH) (cursor_col st)) st).
Qed.

Lemma hide_cursor_crtc_state st :
  crtc_idx (hide_cursor st) = to_uint8 CRTC_CURSOR_LSB_IDX
  /\ crtc_regs (hide_cursor st)
     = upd (upd (crtc_regs st) (to_uint8 CRTC_CURSOR_MSB_IDX)
                (to_uint8 (Z.shiftr CONSOLE_OUT_OF_RANGE 8)))
           (to_uint8 CRTC_CURSOR_LSB_IDX) (to_uint8 CONSOLE_OUT_OF_RANGE).
Proof.
  unfold hide_cursor. cbv zeta.
  apply (crtc_after_sequence CONSOLE_OUT_OF_RANGE st).
Qed.

(** X17: [set_cursor] followed by [show_cursor] brings the hardware
    cursor to the new position: for a position of the grid the register
    holds [row * CONSOLE_WIDTH + col] and the cursor is visible at
    [(row, col)]. *)
Theorem set_cursor_then_show_cursor row col st :
  in_grid row col ->
  crtc_cursor (show_cursor (snd (set_cursor row col st))) = row * CONSOLE_WIDTH + col
  /\ is_cursor_visible (show_cursor (snd (set_cursor row col st))) = 1
  /\ get_cursor (show_cursor (snd (set_cursor row col st))) = (row, col).
Proof.
  intros Hin. rewrite set_cursor_in_grid by assumption. cbn [snd].
  split; [|split].
  - rewrite show_cursor_crtc by assumption.
    unfold linear_pos. simpl.
    apply Z.mod_small.
    destruct Hin as [Hr Hc]. unfold CONSOLE_WIDTH, CONSOLE_HEIGHT in *.
    change (2 ^ 16) with 65536. lia.
  - reflexivity.
  - rewrite show_cursor_position. reflexivity.
Qed.

(** X18: [show_cursor] and [hide_cursor] are idempotent: a second call
    in a row leaves the logical cursor, the visibility flag, the selected
    CRTC index and every CRTC register as the first call left them. *)
Theorem cursor_visibility_idempotent st :
  (get_cursor (show_cursor (show_cursor st)) = get_cursor (show_cursor st)
   /\ is_cursor_visible (show_cursor (show_cursor st)) = is_cursor_visible (show_cursor st)
   /\ crtc_idx (show_cursor (show_cursor st)) = crtc_idx (show_cursor st)
   /\ forall k, crtc_regs (show_cursor (show_cursor st)) k = crtc_regs (show_cursor st) k)
  /\ (get_cursor (hide_cursor (hide_cursor st)) = get_cursor (hide_cursor st)
      /\ is_cursor_visible (hide_cursor (hide_cursor st)) = is_cursor_visible (hide_cursor st)
      /\ crtc_idx (hide_cursor (hide_cursor st)) = crtc_idx (hide_cursor st)
      /\ forall k, crtc_regs (hide_cursor (hide_cursor st)) k = crtc_regs (hide_cursor st) k).
Proof.
  split.
  - split; [apply show_cursor_position|]. split; [reflexivity|].
    destruct (show_cursor_crtc_state (show_cursor st)) as [Hi2 Hr2].
    destruct (show_cursor_crtc_state st) as [Hi1 Hr1].
    split; [congruence|].
    intros k. rewrite Hr2, Hr1.
    assert (cursor_row (show_cursor st) = cursor_row st
            /\ cursor_col (show_cursor st) = cursor_col st) as [-> ->].
    { pose proof (show_cursor_position st) as H. unfold get_cursor in H.
      split; [exact (f_equal fst H)|exact (f_equal snd H)]. }
    apply upd_pair_again.
  - split; [apply hide_cursor_position|]. split; [reflexivity|].
    destruct (hide_cursor_crtc_state (hide_cursor st)) as [Hi2 Hr2].
    destruct (hide_cursor_crtc_state st) as [Hi1 Hr1].
    split; [congruence|].
    intros k. rewrite Hr2, Hr1. apply upd_pair_again.
Qed.


End HardwareCursorFacts.

Section VisibilityFrame.

Context {hw : video_defines}.

(** X20: [hide_cursor] and [show_cursor] only talk to the CRT controller
    and set the visibility flag: memory, the default colour and the
    logical cursor position are as before. *)
Theorem cursor_visibility_frame st :
  (mem (hide_cursor st) = mem st
   /\ current_color (hide_cursor st) = current_color st
   /\ get_cursor (hide_cursor st) = get_cursor st
   /\ is_cursor_visible (hide_cursor st) = 0)
  /\ (mem (show_cursor st) = mem st
      /\ current_color (show_cursor st) = current_color st
      /\ get_cursor (show_cursor st) = get_cursor st
      /\ is_cursor_visible (show_cursor st) = 1).
Proof.
  destruct (hide_cursor_frame st) as (H1 & H2 & H3).
  destruct (show_cursor_frame st) as (S1 & S2 & S3).
  repeat split; assumption.
Qed.

End VisibilityFrame.

(** ** Printing a string *)

Section StringFacts.

Context {hw : video_defines}.

Lemma putbyte_seq_prints l : forall s st,
  0 < s -> s + Z.of_nat (length l) < 2 ^ 32 ->
  (forall i, (i < length l)%nat -> load (s + Z.of_nat i) st = nth i l 0) ->
  Forall ordinary l ->
  0 <= cursor_col st ->
  cursor_col st + Z.of_nat (length l) <= CONSOLE_WIDTH ->
  (forall i j, (i < length l)%nat ->
               cursor_col st <= j < cursor_col st + Z.of_nat (length l) ->
               s + Z.of_nat i <> cell_addr (cursor_row st) j
               /\ s + Z.of_nat i <> attr_addr (cursor_row st) j) ->
  putbyte_seq (length l) s st = putbyte_list l st.
Proof.
  induction l as [|ch l IH]; intros s st Hs Hfit Hstr Hord Hc Hlen Hsep; [reflexivity|].
  inversion Hord as [|? ? Hch Hord']; subst.
  simpl length in *. rewrite Nat2Z.inj_succ in *.
  change (putbyte_list (ch :: l) st) with (putbyte_list l (snd (putbyte ch st))).
  simpl putbyte_seq.
  assert (load s st = ch) as ->.
  { specialize (Hstr O ltac:(lia)). simpl in Hstr. rewrite Z.add_0_r in Hstr. exact Hstr. }
  assert (to_ptr (s + 1) = s + 1) as ->.
  { unfold to_ptr. apply Z.mod_small. change (2 ^ 32) with 4294967296 in *. lia. }
  destruct (putbyte_ordinary_row_col ch st Hch ltac:(lia)) as [Hrow Hcol].
  apply IH.
  - lia.
  - lia.
  - intros i Hi. unfold load.
    replace (s + 1 + Z.of_nat i) with (s + Z.of_nat (S i)) by lia.
    rewrite putbyte_ordinary_mem_other.
    + apply (Hstr (S i)). lia.
    + assumption.
    + apply Hsep; lia.
    + apply Hsep; lia.
  - assumption.
  - lia.
  - lia.
  - intros i j Hi Hj. rewrite Hrow.
    replace (s + 1 + Z.of_nat i) with (s + Z.of_nat (S i)) by lia.
    apply Hsep; lia.
Qed.

(** X21: printing a string.  For a string of ordinary characters that
    lies in memory at [s], apart from the cells it is printed to, and
    fits the rest of the current row, [putbytes] called with the index
    of the last character as length gives each character of the
    string to [putbyte] in turn. *)
Theorem putbytes_prints_string l s st :
  0 < s -> s + Z.of_nat (length l) < 2 ^ 32 ->
  (forall i, (i < length l)%nat -> load (s + Z.of_nat i) st = nth i l 0) ->
  Forall ordinary l ->
  0 <= cursor_col st ->
  cursor_col st + Z.of_nat (length l) <= CONSOLE_WIDTH ->
  (forall i j, (i < length l)%nat ->
               cursor_col st <= j < cursor_col st + Z.of_nat (length l) ->
               s + Z.of_nat i <> cell_addr (cursor_row st) j
               /\ s + Z.of_nat i <> attr_addr (cursor_row st) j) ->
  putbytes s (Z.of_nat (length l) - 1) st = Some (putbyte_list l st).
Proof.
  intros Hs Hfit Hstr Hord Hc Hlen Hsep.
  rewrite putbytes_nonnull by (unfold NULL; lia).
  replace (Z.to_nat (Z.of_nat (length l) - 1 + 1)) with (length l) by lia.
  f_equal. apply putbyte_seq_prints; assumption.
Qed.

End StringFacts.

(** ** What a byte of output can change *)

Section OutputFrame.

Context {hw : video_defines}.



End OutputFrame.

(** ** The further properties on the PC *)

Section PCInstances.

#[local] Existing Instance pc_video.

Ltac grid := unfold in_grid, CONSOLE_HEIGHT, CONSOLE_WIDTH; lia.
Ltac plain := unfold ordinary, char_range; lia.
Ltac ints := unfold int_range; change (2 ^ 31) with 2147483648; simpl; lia.

Lemma pc_buffer_fits :
  0 <= CONSOLE_MEM_BASE
  /\ CONSOLE_MEM_BASE + 2 * (CONSOLE_WIDTH * CONSOLE_HEIGHT) <= 2 ^ 32.
Proof. split; vm_compute; discriminate. Defined.

Lemma pc_ports_distinct :
  CRTC_IDX_REG <> CRTC_DATA_REG
  /\ to_uint8 CRTC_CURSOR_MSB_IDX <> to_uint8 CRTC_CURSOR_LSB_IDX.
Proof. split; vm_compute; discriminate. Defined.

Lemma grid_cells_do_not_alias_witness :
  in_grid 0 79 /\ in_grid 1 0 /\ (0, 79) <> (1, 0)
  /\ cell_addr 0 79 <> cell_addr 1 0
  /\ attr_addr 0 79 <> cell_addr 1 0.
Proof.
  assert (in_grid 0 79) as H1 by grid.
  assert (in_grid 1 0) as H2 by grid.
  assert ((0, 79) <> (1, 0)) as H3 by discriminate.
  destruct (grid_cells_do_not_alias 0 79 1 0 H1 H2 H3) as (Hc & _ & _ & Ha & _).
  split; [exact H1|]. split; [exact H2|]. split; [exact H3|].
  split; [exact Hc|exact Ha].
Defined.

Lemma grid_cells_in_console_mem_witness :
  in_grid 24 79
  /\ cell_addr 24 79 = CONSOLE_MEM_BASE + 3998
  /\ in_console_mem (attr_addr 24 79).
Proof.
  assert (in_grid 24 79) as Hin by grid.
  destruct (grid_cells_in_console_mem 24 79 (proj1 pc_buffer_fits)
              (proj2 pc_buffer_fits) Hin) as (Hc & _ & _ & Ha).
  split; [assumption|]. split; [exact Hc|exact Ha].
Defined.


Lemma draw_char_frame_witness :
  in_grid 2 3
  /\ ~ in_console_mem 0
  /\ mem (draw_char 2 3 65 7 (boot blank blank)) 0 = mem (boot blank blank) 0
  /\ get_cursor (draw_char 2 3 65 7 (boot blank blank)) = get_cursor (boot blank blank).
Proof.
  assert (in_grid 2 3) as Hin by grid.
  assert (~ in_console_mem 0) as Hout by (unfold in_console_mem; simpl; lia).
  destruct (draw_char_frame 2 3 65 7 (boot blank blank) (proj1 pc_buffer_fits)
              (proj2 pc_buffer_fits) Hin) as (Hmem & _ & Hpos & _).
  split; [exact Hin|]. split; [exact Hout|].
  split; [exact (Hmem 0 Hout)|exact Hpos].
Defined.

Lemma clear_console_blanks_grid_witness :
  in_grid 24 79
  /\ get_char 24 79 (clear_console (draw_char 24 79 65 7 (boot blank blank))) = 32
  /\ get_cursor (clear_console (draw_char 24 79 65 7 (boot blank blank))) = (0, 0).
Proof.
  assert (in_grid 24 79) as Hin by grid.
  destruct (clear_console_blanks_grid (draw_char 24 79 65 7 (boot blank blank)) 24 79 Hin)
    as (_ & _ & Hget & Hpos & _).
  split; [assumption|]. split; [exact Hget|exact Hpos].
Defined.

Lemma clear_console_frame_witness :
  ~ in_console_mem 0
  /\ mem (clear_console (boot blank blank)) 0 = mem (boot blank blank) 0.
Proof.
  assert (~ in_console_mem 0) as Hout by (unfold in_console_mem; simpl; lia).
  split; [assumption|].
  exact (clear_console_frame (boot blank blank) 0 (proj1 pc_buffer_fits)
           (proj2 pc_buffer_fits) Hout).
Defined.

Lemma putbyte_get_char_witness :
  ordinary 65 /\ char_range 65
  /\ get_char 0 0 (snd (putbyte 65 (boot blank blank))) = 65.
Proof.
  assert (ordinary 65) as Ho by plain.
  assert (char_range 65) as Hc by plain.
  split; [exact Ho|]. split; [exact Hc|].
  exact (proj1 (putbyte_get_char 65 (boot blank blank) Ho Hc)).
Defined.

Lemma putbyte_list_get_char_witness :
  Forall ordinary [72; 105] /\ Forall char_range [72; 105]
  /\ get_cursor (putbyte_list [72; 105] (boot blank blank)) = (0, 2)
  /\ get_char 0 1 (putbyte_list [72; 105] (boot blank blank)) = 105.
Proof.
  assert (Forall ordinary [72; 105]) as Ho
    by (repeat (constructor; [plain|]); constructor).
  assert (Forall char_range [72; 105]) as Hc
    by (repeat (constructor; [plain|]); constructor).
  assert (0 <= cursor_col (boot blank blank)) as H0 by (simpl; lia).
  assert (cursor_col (boot blank blank) + Z.of_nat (length [72; 105]) <= CONSOLE_WIDTH)
    as H1 by (unfold CONSOLE_WIDTH; simpl; lia).
  destruct (putbyte_list_get_char [72; 105] (boot blank blank) Ho Hc H0 H1)
    as [Hpos Hget].
  split; [exact Ho|]. split; [exact Hc|]. split; [exact Hpos|].
  exact (Hget 1%nat ltac:(simpl; lia)).
Defined.

Lemma putbyte_then_backspace_witness :
  ordinary 65 /\ 0 <= cursor_col (boot blank blank) < CONSOLE_WIDTH
  /\ get_cursor (snd (putbyte 8 (snd (putbyte 65 (boot blank blank))))) = (0, 0)
  /\ get_char 0 0 (snd (putbyte 8 (snd (putbyte 65 (boot blank blank))))) = 32.
Proof.
  assert (ordinary 65) as Ho by plain.
  assert (0 <= cursor_col (boot blank blank) < CONSOLE_WIDTH) as Hc
    by (unfold CONSOLE_WIDTH; simpl; lia).
  destruct (putbyte_then_backspace 65 (boot blank blank) Ho Hc) as (Hpos & Hget & _).
  split; [exact Ho|]. split; [exact Hc|]. split; [exact Hpos|exact Hget].
Defined.

Lemma putbyte_backspace_blanks_witness :
  int_range (cursor_col (with_cursor_row 3 (boot blank blank)) - 1)
  /\ int_range (cursor_row (with_cursor_row 3 (boot blank blank)) - 1)
  /\ get_cursor (snd (putbyte 8 (with_cursor_row 3 (boot blank blank)))) = (2, 79).
Proof.
  assert (int_range (cursor_col (with_cursor_row 3 (boot blank blank)) - 1)) as Hc by ints.
  assert (int_range (cursor_row (with_cursor_row 3 (boot blank blank)) - 1)) as Hr by ints.
  split; [exact Hc|]. split; [exact Hr|].
  exact (proj1 (putbyte_backspace_blanks (with_cursor_row 3 (boot blank blank)) Hc Hr)).
Defined.

Lemma putbyte_newline_carriage_return_witness :
  int_range (cursor_row (with_cursor_col 7 (boot blank blank)) + 1)
  /\ get_cursor (snd (putbyte 10 (with_cursor_col 7 (boot blank blank)))) = (1, 0)
  /\ get_cursor (snd (putbyte 13 (with_cursor_col 7 (boot blank blank)))) = (0, 0).
Proof.
  assert (int_range (cursor_row (with_cursor_col 7 (boot blank blank)) + 1)) as Hr by ints.
  destruct (putbyte_newline_carriage_return (with_cursor_col 7 (boot blank blank)) Hr)
    as (Hnl & _ & Hcr & _).
  split; [assumption|]. split; [exact Hnl|exact Hcr].
Defined.

Lemma set_cursor_then_putbyte_witness :
  in_grid 3 5 /\ ordinary 65 /\ char_range 65
  /\ get_char 3 5 (snd (putbyte 65 (snd (set_cursor 3 5 (boot blank blank))))) = 65
  /\ get_cursor (snd (putbyte 65 (snd (set_cursor 3 5 (boot blank blank))))) = (3, 6).
Proof.
  assert (in_grid 3 5) as Hin by grid.
  assert (ordinary 65) as Ho by plain.
  assert (char_range 65) as Hc by plain.
  destruct (set_cursor_then_putbyte 3 5 65 (boot blank blank) Hin Ho Hc)
    as (_ & Hget & Hpos).
  split; [exact Hin|]. split; [exact Ho|]. split; [exact Hc|].
  split; [exact Hget|exact Hpos].
Defined.

Lemma set_cursor_then_show_cursor_witness :
  in_grid 3 5
  /\ crtc_cursor (show_cursor (snd (set_cursor 3 5 (boot blank blank)))) = 245.
Proof.
  assert (in_grid 3 5) as Hin by grid.
  split; [assumption|].
  exact (proj1 (set_cursor_then_show_cursor (proj1 pc_ports_distinct)
                  (proj2 pc_ports_distinct) 3 5 (boot blank blank) Hin)).
Defined.

Lemma cursor_visibility_idempotent_witness :
  CRTC_IDX_REG <> CRTC_DATA_REG
  /\ crtc_regs (show_cursor (show_cursor (boot blank blank))) 14
     = crtc_regs (show_cursor (boot blank blank)) 14.
Proof.
  split; [exact (proj1 pc_ports_distinct)|].
  destruct (cursor_visibility_idempotent (proj1 pc_ports_distinct) (boot blank blank))
    as [(_ & _ & _ & Hregs) _].
  exact (Hregs 14).
Defined.



Lemma putbytes_prints_string_witness :
  let st := store 0x1001 105 (store 0x1000 72 (boot blank blank)) in
  load 0x1000 st = 72 /\ load 0x1001 st = 105
  /\ putbytes 0x1000 1 st = Some (putbyte_list [72; 105] st).
Proof.
  cbv zeta.
  set (st := store 0x1001 105 (store 0x1000 72 (boot blank blank))).
  assert (load 0x1000 st = 72) as L0 by reflexivity.
  assert (load 0x1001 st = 105) as L1 by reflexivity.
  assert (forall i, (i < length [72; 105])%nat ->
                    load (0x1000 + Z.of_nat i) st = nth i [72; 105] 0) as Hstr.
  { intros [|[|i]] Hi; [exact L0|exact L1|simpl in Hi; lia]. }
  assert (Forall ordinary [72; 105]) as Ho
    by (repeat (constructor; [plain|]); constructor).
  assert (forall i j, (i < length [72; 105])%nat ->
            cursor_col st <= j < cursor_col st + Z.of_nat (length [72; 105]) ->
            0x1000 + Z.of_nat i <> cell_addr (cursor_row st) j
            /\ 0x1000 + Z.of_nat i <> attr_addr (cursor_row st) j) as Hsep.
  { intros i j Hi Hj. simpl in Hi, Hj.
    assert (j = 0 \/ j = 1) as [->| ->] by lia;
      destruct i as [|[|i]]; try lia; split; vm_compute; discriminate. }
  split; [exact L0|]. split; [exact L1|].
  exact (putbytes_prints_string [72; 105] 0x1000 st
           ltac:(lia) ltac:(vm_compute; reflexivity) Hstr Ho
           ltac:(simpl; lia) ltac:(unfold CONSOLE_WIDTH; simpl; lia) Hsep).
Defined.

End PCInstances.
